(** * Stiebel Eltron ISG component: register-map decoding

    A shallow embedding of [custom_components/stiebel_eltron_isg/__init__.py]:
    the Modbus register reads of [StiebelEltronModbusDataCoordinator], the
    pymodbus payload decoder they drive, the schema-driven parser and the
    per-poll assembly of the result dictionary, followed by the properties
    of the register-map specification that were checked against them. *)

From Stdlib Require Import ZArith Lia Bool PrimFloat Uint63.
From stdpp Require Import base gmap strings list.

Set Warnings "-inexact-float,-register-all,-clear-no-such-hyp".
Open Scope Z_scope.

(** ** Python values, exceptions and results *)

(** The values that end up in a result dictionary: [None], booleans,
    integers, floats (IEEE binary64, as CPython's [float]) and lists. *)
Inductive value : Type :=
  | VNone
  | VBool (b : bool)
  | VInt (z : Z)
  | VFloat (f : float)
  | VList (l : list value).

(** A [Dict] with string keys. *)
Abbreviation Dict := (gmap string value).

(** The exceptions the module can raise. [struct_error] is [struct.error],
    raised by [struct.pack]/[struct.unpack] inside pymodbus. *)
Inductive exn : Type :=
  | ValueError (msg : string)
  | AttributeError (attr : string)
  | UnboundLocalError (var : string)
  | KeyError (key : string)
  | IndexError
  | TypeError
  | struct_error
  | UpdateFailed (cause : exn).

Inductive outcome (A : Type) : Type :=
  | Ok (a : A)
  | Raise (e : exn).
Arguments Ok {A} a.
Arguments Raise {A} e.

Definition is_Ok {A} (r : outcome A) : bool :=
  match r with Ok _ => true | Raise _ => false end.

(** ** A state-and-exception monad

    A computation over a mutable state [S] either returns or raises; the
    state it leaves behind is kept in both cases, as a Python object keeps
    the mutations made before an exception. *)
Definition St (S A : Type) : Type := S -> S * outcome A.

Definition ret {S A} (a : A) : St S A := fun s => (s, Ok a).
Definition raise {S A} (e : exn) : St S A := fun s => (s, Raise e).
Definition bind {S A B} (m : St S A) (k : A -> St S B) : St S B :=
  fun s =>
    match m s with
    | (s', Ok a) => k a s'
    | (s', Raise e) => (s', Raise e)
    end.
Definition lift {S A} (r : outcome A) : St S A := fun s => (s, r).

Notation "x <- m ;; k" := (bind m (fun x => k))
  (at level 100, m at next level, right associativity).
Notation "m ;; k" := (bind m (fun _ => k))
  (at level 100, right associativity).

(** ** The pymodbus payload decoder

    [BinaryPayloadDecoder] holds the payload bytes and a byte pointer.
    [fromRegisters] packs every register with [pack('!H', x)]; the decode
    methods advance the pointer first and then unpack the slice
    [payload[pointer - 2 : pointer]] in big-endian order. *)
Record BinaryPayloadDecoder : Type := {
  _payload : list Z;
  _pointer : nat
}.

(** [struct.pack('!H', x)]: two big-endian bytes, [struct.error] outside
    the range of an unsigned 16-bit integer. *)
Definition pack_H (x : Z) : outcome (list Z) :=
  if (0 <=? x) && (x <=? 65535) then Ok [x / 256; x mod 256]
  else Raise struct_error.

Fixpoint pack_registers (registers : list Z) : outcome (list Z) :=
  match registers with
  | [] => Ok []
  | x :: rest =>
      match pack_H x with
      | Raise e => Raise e
      | Ok b =>
          match pack_registers rest with
          | Raise e => Raise e
          | Ok bs => Ok (b ++ bs)
          end
      end
  end.

Definition fromRegisters (registers : list Z) : outcome BinaryPayloadDecoder :=
  match pack_registers registers with
  | Ok payload => Ok {| _payload := payload; _pointer := 0 |}
  | Raise e => Raise e
  end.

(** Python's [l[i:j]] for in-range, non-negative [i] and [j]. *)
Definition slice (l : list Z) (i j : nat) : list Z := firstn (j - i) (skipn i l).

(** [struct.unpack('>H', handle)[0]] and [struct.unpack('>h', handle)[0]]. *)
Definition unpack_H (handle : list Z) : outcome Z :=
  match handle with
  | [hi; lo] => Ok (hi * 256 + lo)
  | _ => Raise struct_error
  end.

Definition unpack_h (handle : list Z) : outcome Z :=
  match handle with
  | [hi; lo] =>
      let u := hi * 256 + lo in
      Ok (if u <? 32768 then u else u - 65536)
  | _ => Raise struct_error
  end.

Definition advance (n : nat) (d : BinaryPayloadDecoder) : BinaryPayloadDecoder :=
  {| _payload := _payload d; _pointer := (_pointer d + n)%nat |}.

Definition decode_16bit_uint : St BinaryPayloadDecoder Z :=
  fun d =>
    let d' := advance 2 d in
    (d', unpack_H (slice (_payload d') (_pointer d' - 2) (_pointer d'))).

Definition decode_16bit_int : St BinaryPayloadDecoder Z :=
  fun d =>
    let d' := advance 2 d in
    (d', unpack_h (slice (_payload d') (_pointer d' - 2) (_pointer d'))).

Definition skip_bytes (nbytes : nat) : St BinaryPayloadDecoder unit :=
  fun d => (advance nbytes d, Ok tt).

(** ** Module-level constants and [get_isg_scaled_value] *)

Definition ISG_TYPE_2 : Z := 2.    (* 16bit signed,   scale 0.1 *)
Definition ISG_TYPE_6 : Z := 6.    (* 16bit unsigned, scale 1 *)
Definition ISG_TYPE_7 : Z := 7.    (* 16bit signed,   scale 0.01 *)
Definition ISG_TYPE_8 : Z := 8.    (* 8bit  unsigned, scale 1 *)
Definition ISG_TYPE_C : Z := 128.  (* composite value: multiple values as list *)

(** The conversion of a Python [int] to a [float], as the mixed product
    [temp * 0.1] performs it. It is exact on the integers met here, which
    stay far below 2^53. *)
Definition float_of_Z (z : Z) : float :=
  match z with
  | Z0 => PrimFloat.zero
  | Zpos _ => PrimFloat.of_uint63 (Uint63.of_Z z)
  | Zneg p => PrimFloat.opp (PrimFloat.of_uint63 (Uint63.of_Z (Zpos p)))
  end.

Definition get_isg_scaled_value (temp : Z) : value :=
  if negb (temp =? -32768) then VFloat (PrimFloat.mul (float_of_Z temp) 0.1%float)
  else VNone.


(** ** The Modbus client and the coordinator

    [self._client.read_input_registers(address, count, slave)] answers with
    an error response or with the registers read; [isError()] tells them
    apart. The coordinator is modelled by its client; the requests it sends
    are recorded, in order, in the state of the monad [M]. *)
Inductive response : Type :=
  | ModbusError
  | ReadInputRegistersResponse (registers : list Z).

Definition isError (r : response) : bool :=
  match r with ModbusError => true | ReadInputRegistersResponse _ => false end.

Record request : Type := {
  req_slave : Z;
  req_address : Z;
  req_count : Z
}.

Record StiebelEltronModbusDataCoordinator : Type := {
  _client : Z -> Z -> Z -> response   (* address, count, slave *)
}.

Definition M (A : Type) : Type := St (list request) A.

Definition read_input_registers
    (self : StiebelEltronModbusDataCoordinator) (slave address count : Z) : M response :=
  fun trace =>
    (trace ++ [{| req_slave := slave; req_address := address; req_count := count |}],
     Ok (_client self address count slave)).

(** Runs a sequence of decoder calls on a decoder local to the caller. *)
Definition run {A} (decoder : BinaryPayloadDecoder) (m : St BinaryPayloadDecoder A) : M A :=
  lift (snd (m decoder)).

(** ** The constants imported from [.const]

    The module [const] is not part of the sources at hand: its constants
    are a parameter of the development. The result keys are strings;
    [HEATPUMPT_AVERAGE_POWER] is some Python value. *)
Class Const : Type := {
  ACTUAL_TEMPERATURE : string;
  TARGET_TEMPERATURE : string;
  ACTUAL_TEMPERATURE_FEK : string;
  TARGET_TEMPERATURE_FEK : string;
  ACTUAL_HUMIDITY : string;
  DEWPOINT_TEMPERATURE : string;
  OUTDOOR_TEMPERATURE : string;
  ACTUAL_TEMPERATURE_HK1 : string;
  TARGET_TEMPERATURE_HK1 : string;
  ACTUAL_TEMPERATURE_HK2 : string;
  TARGET_TEMPERATURE_HK2 : string;
  ACTUAL_TEMPERATURE_BUFFER : string;
  TARGET_TEMPERATURE_BUFFER : string;
  ACTUAL_TEMPERATURE_WATER : string;
  TARGET_TEMPERATURE_WATER : string;
  SOURCE_TEMPERATURE : string;
  PRODUCED_HEATING_TODAY : string;
  PRODUCED_HEATING_TOTAL : string;
  PRODUCED_WATER_HEATING_TODAY : string;
  PRODUCED_WATER_HEATING_TOTAL : string;
  CONSUMED_HEATING_TODAY : string;
  CONSUMED_HEATING_TOTAL : string;
  CONSUMED_WATER_HEATING_TODAY : string;
  CONSUMED_WATER_HEATING_TOTAL : string;
  CONSUMED_POWER : string;
  HEATPUMPT_AVERAGE_POWER : value;
  IS_HEATING : string;
  IS_HEATING_WATER : string;
  IS_SUMMER_MODE : string;
  IS_COOLING : string
}.

(** ** Python operators used on dictionary values *)

(** [d[key]] *)
Definition dict_getitem (d : Dict) (key : string) : outcome value :=
  match d !! key with
  | Some v => Ok v
  | None => Raise (KeyError key)
  end.

(** [v[i]] for a non-negative literal index [i]. *)
Definition list_getitem (v : value) (i : nat) : outcome value :=
  match v with
  | VList l =>
      match l !! i with
      | Some x => Ok x
      | None => Raise IndexError
      end
  | _ => Raise TypeError
  end.

(** [a * n] for an integer literal [n]. *)
Definition py_mul_int (a : value) (n : Z) : outcome value :=
  match a with
  | VInt z => Ok (VInt (z * n))
  | VBool b => Ok (VInt (Z.b2z b * n))
  | VFloat f => Ok (VFloat (PrimFloat.mul f (float_of_Z n)))
  | VList l => Ok (VList (concat (repeat l (Z.to_nat n))))
  | VNone => Raise TypeError
  end.

(** [a + b] *)
Definition py_add (a b : value) : outcome value :=
  match a, b with
  | VInt x, VInt y => Ok (VInt (x + y))
  | VInt x, VBool y => Ok (VInt (x + Z.b2z y))
  | VBool x, VInt y => Ok (VInt (Z.b2z x + y))
  | VBool x, VBool y => Ok (VInt (Z.b2z x + Z.b2z y))
  | VFloat x, VFloat y => Ok (VFloat (PrimFloat.add x y))
  | VFloat x, VInt y => Ok (VFloat (PrimFloat.add x (float_of_Z y)))
  | VInt x, VFloat y => Ok (VFloat (PrimFloat.add (float_of_Z x) y))
  | VFloat x, VBool y => Ok (VFloat (PrimFloat.add x (float_of_Z (Z.b2z y))))
  | VBool x, VFloat y => Ok (VFloat (PrimFloat.add (float_of_Z (Z.b2z x)) y))
  | VList x, VList y => Ok (VList (x ++ y))
  | _, _ => Raise TypeError
  end.

(** [result.setdefault(valname, []).append(value)]: the list stored under
    [valname] (a fresh one when the key is missing) grows by [value]; any
    other stored object has no [append]. *)
Definition setdefault_append (result : Dict) (valname : string) (v : value)
    : outcome Dict :=
  match result !! valname with
  | None => Ok (<[valname := VList [v]]> result)
  | Some (VList l) => Ok (<[valname := VList (l ++ [v])]> result)
  | Some _ => Raise (AttributeError "append")
  end.

(** [{**a, **b}]: the entries of [b] win. *)
Definition dict_update (a b : Dict) : Dict := b ∪ a.

(** ** The methods of [StiebelEltronModbusDataCoordinator] *)

Section Coordinator.
Context `{Const}.

Definition read_modbus_system_state (self : StiebelEltronModbusDataCoordinator) : M Dict :=
  let result : Dict := ∅ in
  inverter_data <- read_input_registers self 1 2500 1 ;;
  match inverter_data with
  | ReadInputRegistersResponse registers =>
      decoder <- lift (fromRegisters registers) ;;
      run decoder (
        state <- decode_16bit_uint ;;
        let is_heating := negb (Z.land state (Z.shiftl 1 4) =? 0) in
        let result := <[IS_HEATING := VBool is_heating]> result in
        let is_heating_water := negb (Z.land state (Z.shiftl 1 5) =? 0) in
        let result := <[IS_HEATING_WATER := VBool is_heating_water]> result in
        let result :=
          <[CONSUMED_POWER :=
              if is_heating_water || is_heating then HEATPUMPT_AVERAGE_POWER
              else VFloat 0.0%float]> result in
        let result :=
          <[IS_SUMMER_MODE := VBool (negb (Z.land state (Z.shiftl 1 7) =? 0))]> result in
        let result :=
          <[IS_COOLING := VBool (negb (Z.land state (Z.shiftl 1 8) =? 0))]> result in
        ret result)
  | ModbusError => ret result
  end.

(** One iteration of the loop of [parse_modbus_values_by_map]. *)
Definition parse_entry (entry : option string * Z) (result : Dict)
    : St BinaryPayloadDecoder Dict :=
  let '(valname, valtype) := entry in
  let composite_val := negb (Z.land valtype ISG_TYPE_C =? 0) in
  let valtype :=
    if composite_val then Z.land valtype (Z.lnot ISG_TYPE_C) else valtype in
  value <-
    (if ISG_TYPE_2 =? valtype then
       temp <- decode_16bit_int ;; ret (get_isg_scaled_value temp)
     else if ISG_TYPE_6 =? valtype then
       v <- decode_16bit_uint ;; ret (VInt v)
     else raise (ValueError "Unknown register type!")) ;;
  match valname with
  | Some valname =>
      if composite_val then lift (setdefault_append result valname value)
      else ret (<[valname := value]> result)
  | None => ret result
  end.

Fixpoint parse_loop (values_map : list (option string * Z)) (result : Dict)
    : St BinaryPayloadDecoder Dict :=
  match values_map with
  | [] => ret result
  | entry :: values_map =>
      result <- parse_entry entry result ;;
      parse_loop values_map result
  end.

Definition parse_modbus_values_by_map (values_map : list (option string * Z))
    : St BinaryPayloadDecoder Dict :=
  parse_loop values_map ∅.

Definition ACTUAL_HUMIDITY_HK1 : string := "actual_humidity_hk1".
Definition ACTUAL_HUMIDITY_HK2 : string := "actual_humidity_hk2".
Definition ACTUAL_CIRCUIT_TEMPERATURE_HK1 : string := "actual_temperature_hk1".
Definition TARGET_CIRCUIT_TEMPERATURE_HK1 : string := "target_temperature_hk1".
Definition ACTUAL_CIRCUIT_TEMPERATURE_HK2 : string := "actual_temperature_hk2".
Definition TARGET_CIRCUIT_TEMPERATURE_HK2 : string := "target_temperature_hk2".
Definition SUPPLY_TEMPERATURE : string := "supply_temperature".
Definition RETURN_TEMPERATURE : string := "return_temperature".
Definition PRESSURE_CIRCUIT : string := "pressure_circuit".
Definition COMPRESSOR_STARTS : string := "compressor_starts".

Definition system_values_map_LW : list (option string * Z) :=
  [ (Some ACTUAL_TEMPERATURE_HK1, ISG_TYPE_2);
    (Some TARGET_TEMPERATURE_HK1, ISG_TYPE_2);
    (Some ACTUAL_HUMIDITY_HK1, ISG_TYPE_2);
    (Some ACTUAL_TEMPERATURE_HK2, ISG_TYPE_2);
    (Some ACTUAL_TEMPERATURE_HK2, ISG_TYPE_2);

    (Some ACTUAL_HUMIDITY_HK2, ISG_TYPE_2);
    (Some OUTDOOR_TEMPERATURE, ISG_TYPE_2);
    (Some ACTUAL_CIRCUIT_TEMPERATURE_HK1, ISG_TYPE_2);
    (Some TARGET_CIRCUIT_TEMPERATURE_HK1, ISG_TYPE_2);
    (Some ACTUAL_CIRCUIT_TEMPERATURE_HK2, ISG_TYPE_2);

    (Some TARGET_CIRCUIT_TEMPERATURE_HK2, ISG_TYPE_2);
    (Some SUPPLY_TEMPERATURE, ISG_TYPE_2);
    (Some RETURN_TEMPERATURE, ISG_TYPE_2);
    (Some PRESSURE_CIRCUIT, ISG_TYPE_2);
    (None, ISG_TYPE_2);  (* volume_flow *)

    (Some ACTUAL_TEMPERATURE_WATER, ISG_TYPE_2);
    (Some TARGET_TEMPERATURE_WATER, ISG_TYPE_2);
    (None, ISG_TYPE_6);  (* inlet_actual_fan_speed *)
    (None, ISG_TYPE_6);  (* inlet_target_volume_flow *)
    (None, ISG_TYPE_6);  (* outlet_actual_fan_speed *)

    (None, ISG_TYPE_6);  (* outlet_target_volume_flow *)
    (None, ISG_TYPE_6);  (* outlet_humidity *)
    (None, ISG_TYPE_2);  (* outlet_temperature *)
    (None, ISG_TYPE_2);  (* outlet_dew_point *)
    (None, ISG_TYPE_2);  (* hk1_dew_point *)

    (None, ISG_TYPE_2);  (* hk2_dew_point *)
    (None, ISG_TYPE_2);  (* collector_temperature *)
    (None, ISG_TYPE_2);  (* hot_gas_temperature *)
    (None, ISG_TYPE_7);  (* high_pressure *)
    (None, ISG_TYPE_7);  (* low_pressure *)

    (Some COMPRESSOR_STARTS, Z.lor ISG_TYPE_6 ISG_TYPE_C);  (* the high part: *1000 *)
    (None, ISG_TYPE_2);  (* compressor_rpm *)
    (None, ISG_TYPE_6);  (* mixed_water_volume *)
    (Some COMPRESSOR_STARTS, Z.lor ISG_TYPE_6 ISG_TYPE_C)   (* the low part: [0..999] *)
  ].

(** In [read_modbus_system_values_LW] the local [decoder] is assigned only
    when the read succeeded, and used after the [if] in either case: the
    option tells whether the name is bound. *)
Definition read_modbus_system_values_LW (self : StiebelEltronModbusDataCoordinator)
    : M Dict :=
  inverter_data <- read_input_registers self 1 0 34 ;;
  decoder <-
    match inverter_data with
    | ReadInputRegistersResponse registers =>
        decoder <- lift (fromRegisters registers) ;; ret (Some decoder)
    | ModbusError => ret None
    end ;;
  decoder <-
    match decoder with
    | Some decoder => ret decoder
    | None => raise (UnboundLocalError "decoder")
    end ;;
  result <- run decoder (parse_modbus_values_by_map system_values_map_LW) ;;
  (* Convert composite value to single number *)
  starts <- lift (dict_getitem result COMPRESSOR_STARTS) ;;
  high <- lift (list_getitem starts 0) ;;
  high1000 <- lift (py_mul_int high 1000) ;;
  starts <- lift (dict_getitem result COMPRESSOR_STARTS) ;;
  low <- lift (list_getitem starts 1) ;;
  total <- lift (py_add high1000 low) ;;
  let result := <[COMPRESSOR_STARTS := total]> result in
  ret result.

Definition read_modbus_system_values (self : StiebelEltronModbusDataCoordinator) : M Dict :=
  let result : Dict := ∅ in
  inverter_data <- read_input_registers self 1 500 40 ;;
  match inverter_data with
  | ReadInputRegistersResponse registers =>
      decoder <- lift (fromRegisters registers) ;;
      run decoder (
        temp <- decode_16bit_int ;;
        let result := <[ACTUAL_TEMPERATURE := get_isg_scaled_value temp]> result in
        temp <- decode_16bit_int ;;
        let result := <[TARGET_TEMPERATURE := get_isg_scaled_value temp]> result in
        temp <- decode_16bit_int ;;
        let result := <[ACTUAL_TEMPERATURE_FEK := get_isg_scaled_value temp]> result in
        temp <- decode_16bit_int ;;
        let result := <[TARGET_TEMPERATURE_FEK := get_isg_scaled_value temp]> result in
        temp <- decode_16bit_int ;;
        let result := <[ACTUAL_HUMIDITY := get_isg_scaled_value temp]> result in
        temp <- decode_16bit_int ;;
        let result := <[DEWPOINT_TEMPERATURE := get_isg_scaled_value temp]> result in
        temp <- decode_16bit_int ;;
        let result := <[OUTDOOR_TEMPERATURE := get_isg_scaled_value temp]> result in
        temp <- decode_16bit_int ;;
        let result := <[ACTUAL_TEMPERATURE_HK1 := get_isg_scaled_value temp]> result in
        temp <- decode_16bit_int ;;
        let hk1_target := get_isg_scaled_value temp in
        temp <- decode_16bit_int ;;
        let result := <[TARGET_TEMPERATURE_HK1 := get_isg_scaled_value temp]> result in
        temp <- decode_16bit_int ;;
        let result := <[ACTUAL_TEMPERATURE_HK2 := get_isg_scaled_value temp]> result in
        temp <- decode_16bit_int ;;
        let result := <[TARGET_TEMPERATURE_HK2 := get_isg_scaled_value temp]> result in
        skip_bytes 10 ;;
        temp <- decode_16bit_int ;;
        let result := <[ACTUAL_TEMPERATURE_BUFFER := get_isg_scaled_value temp]> result in
        temp <- decode_16bit_int ;;
        let result := <[TARGET_TEMPERATURE_BUFFER := get_isg_scaled_value temp]> result in
        skip_bytes 4 ;;
        temp <- decode_16bit_int ;;
        let result := <[ACTUAL_TEMPERATURE_WATER := get_isg_scaled_value temp]> result in
        temp <- decode_16bit_int ;;
        let result := <[TARGET_TEMPERATURE_WATER := get_isg_scaled_value temp]> result in
        skip_bytes 24 ;;
        temp <- decode_16bit_int ;;
        let result := <[SOURCE_TEMPERATURE := get_isg_scaled_value temp]> result in
        ret result)
  | ModbusError => ret result
  end.

Definition read_modbus_energy (self : StiebelEltronModbusDataCoordinator) : M Dict :=
  let result : Dict := ∅ in
  inverter_data <- read_input_registers self 1 3500 22 ;;
  match inverter_data with
  | ReadInputRegistersResponse registers =>
      decoder <- lift (fromRegisters registers) ;;
      run decoder (
        produced_heating_today <- decode_16bit_uint ;;
        produced_heating_total_low <- decode_16bit_uint ;;
        produced_heating_total_high <- decode_16bit_uint ;;
        produced_water_today <- decode_16bit_uint ;;
        produced_water_total_low <- decode_16bit_uint ;;
        produced_water_total_high <- decode_16bit_uint ;;
        skip_bytes 8 ;;  (* Skip NHZ *)
        consumed_heating_today <- decode_16bit_uint ;;
        consumed_heating_total_low <- decode_16bit_uint ;;
        consumed_heating_total_high <- decode_16bit_uint ;;
        consumed_water_today <- decode_16bit_uint ;;
        consumed_water_total_low <- decode_16bit_uint ;;
        consumed_water_total_high <- decode_16bit_uint ;;

        let result := <[PRODUCED_HEATING_TODAY := VInt produced_heating_today]> result in
        let result :=
          <[PRODUCED_HEATING_TOTAL :=
              VInt (produced_heating_total_high * 1000 + produced_heating_total_low)]>
            result in
        let result := <[PRODUCED_WATER_HEATING_TODAY := VInt produced_water_today]> result in
        let result :=
          <[PRODUCED_WATER_HEATING_TOTAL :=
              VInt (produced_water_total_high * 1000 + produced_water_total_low)]>
            result in
        let result := <[CONSUMED_HEATING_TODAY := VInt consumed_heating_today]> result in
        let result :=
          <[CONSUMED_HEATING_TOTAL :=
              VInt (consumed_heating_total_high * 1000 + consumed_heating_total_low)]>
            result in
        let result := <[CONSUMED_WATER_HEATING_TODAY := VInt consumed_water_today]> result in
        let result :=
          <[CONSUMED_WATER_HEATING_TOTAL :=
              VInt (consumed_water_total_high * 1000 + consumed_water_total_low)]>
            result in
        ret result)
  | ModbusError => ret result
  end.

Definition read_modbus_controller_id (self : StiebelEltronModbusDataCoordinator) : M Z :=
  let controller_id := 0 in
  inverter_data <- read_input_registers self 1 5001 1 ;;
  match inverter_data with
  | ReadInputRegistersResponse registers =>
      decoder <- lift (fromRegisters registers) ;;
      controller_id <- run decoder decode_16bit_uint ;;
      ret controller_id
  | ModbusError => ret controller_id
  end.

(** The attribute lookup [self.<name>] followed by a call without
    arguments. Python names are case-sensitive: the class defines these four
    methods that return a [Dict], its base class [DataUpdateCoordinator]
    defines no [read_modbus_*] attribute, and the lookup of any other such
    name raises [AttributeError]. *)
Definition call_method (self : StiebelEltronModbusDataCoordinator) (name : string)
    : M Dict :=
  if String.eqb name "read_modbus_system_state" then read_modbus_system_state self
  else if String.eqb name "read_modbus_system_values_LW" then read_modbus_system_values_LW self
  else if String.eqb name "read_modbus_system_values" then read_modbus_system_values self
  else if String.eqb name "read_modbus_energy" then read_modbus_energy self
  else raise (AttributeError name).

Definition read_modbus_data (self : StiebelEltronModbusDataCoordinator) : M Dict :=
  id <- read_modbus_controller_id self ;;
  if 103 =? id then
    system_values <- call_method self "read_modbus_system_values_lw" ;;
    let result := dict_update ∅ system_values in
    let result := <["controller_id" := VInt id]> result in
    ret result
  else
    energy <- call_method self "read_modbus_energy" ;;
    system_state <- call_method self "read_modbus_system_state" ;;
    system_values <- call_method self "read_modbus_system_values" ;;
    let result := dict_update ∅ energy in
    let result := dict_update result system_state in
    let result := dict_update result system_values in
    let result := <["controller_id" := VInt id]> result in
    ret result.

(** [try: return self.read_modbus_data() except Exception as exception:
    raise UpdateFailed() from exception] *)
Definition _async_update_data (self : StiebelEltronModbusDataCoordinator) : M Dict :=
  fun trace =>
    match read_modbus_data self trace with
    | (trace', Ok result) => (trace', Ok result)
    | (trace', Raise exception) => (trace', Raise (UpdateFailed exception))
    end.

End Coordinator.

(** A concrete [const] module, used to run the methods on examples: the
    keys are the lower-case spellings of the constants' names; the average
    power is a sample value. *)
Definition const_sample : Const := {|
  ACTUAL_TEMPERATURE := "actual_temperature";
  TARGET_TEMPERATURE := "target_temperature";
  ACTUAL_TEMPERATURE_FEK := "actual_temperature_fek";
  TARGET_TEMPERATURE_FEK := "target_temperature_fek";
  ACTUAL_HUMIDITY := "actual_humidity";
  DEWPOINT_TEMPERATURE := "dewpoint_temperature";
  OUTDOOR_TEMPERATURE := "outdoor_temperature";
  ACTUAL_TEMPERATURE_HK1 := "actual_temperature_hk1";
  TARGET_TEMPERATURE_HK1 := "target_temperature_hk1";
  ACTUAL_TEMPERATURE_HK2 := "actual_temperature_hk2";
  TARGET_TEMPERATURE_HK2 := "target_temperature_hk2";
  ACTUAL_TEMPERATURE_BUFFER := "actual_temperature_buffer";
  TARGET_TEMPERATURE_BUFFER := "target_temperature_buffer";
  ACTUAL_TEMPERATURE_WATER := "actual_temperature_water";
  TARGET_TEMPERATURE_WATER := "target_temperature_water";
  SOURCE_TEMPERATURE := "source_temperature";
  PRODUCED_HEATING_TODAY := "produced_heating_today";
  PRODUCED_HEATING_TOTAL := "produced_heating_total";
  PRODUCED_WATER_HEATING_TODAY := "produced_water_heating_today";
  PRODUCED_WATER_HEATING_TOTAL := "produced_water_heating_total";
  CONSUMED_HEATING_TODAY := "consumed_heating_today";
  CONSUMED_HEATING_TOTAL := "consumed_heating_total";
  CONSUMED_WATER_HEATING_TODAY := "consumed_water_heating_today";
  CONSUMED_WATER_HEATING_TOTAL := "consumed_water_heating_total";
  CONSUMED_POWER := "consumed_power";
  HEATPUMPT_AVERAGE_POWER := VFloat 3000.0%float;
  IS_HEATING := "is_heating";
  IS_HEATING_WATER := "is_heating_water";
  IS_SUMMER_MODE := "is_summer_mode";
  IS_COOLING := "is_cooling"
|}.

(** ** Vocabulary of the statements *)

(** A register as the transport delivers it: an unsigned 16-bit word. *)
Definition word16 (x : Z) : bool := (0 <=? x) && (x <=? 65535).

(** The two's-complement reading of a word. *)
Definition to_signed (w : Z) : Z := if w <? 32768 then w else w - 65536.

(** The register at position [i] of a block. *)
Definition reg (registers : list Z) (i : nat) : Z := nth i registers 0.

(** The payload of a block of registers and the decoder that stands in
    front of its register [i]. *)
Definition payload_of (registers : list Z) : list Z :=
  flat_map (fun x => [x / 256; x mod 256]) registers.

Definition decoder_at (registers : list Z) (i : nat) : BinaryPayloadDecoder :=
  {| _payload := payload_of registers; _pointer := 2 * i |}.

(** The number of whole words left in front of a decoder. *)
Definition words_left (d : BinaryPayloadDecoder) : nat :=
  (length (_payload d) - _pointer d) / 2.

(** The composite bit of a type code, the type code without it, and the
    type codes the parser handles. *)
Definition composite (valtype : Z) : bool := negb (Z.land valtype ISG_TYPE_C =? 0).
Definition base_type (valtype : Z) : Z := Z.land valtype (Z.lnot ISG_TYPE_C).
Definition handled (valtype : Z) : bool :=
  (base_type valtype =? ISG_TYPE_2) || (base_type valtype =? ISG_TYPE_6).

(** The value a handled type code decodes from the word [w]. *)
Definition decode_value (valtype w : Z) : value :=
  if base_type valtype =? ISG_TYPE_2 then get_isg_scaled_value (to_signed w)
  else VInt w.

(** The values decoded for the entries named [n], in schema order, when
    entry [k] is paired with word [k]. *)
Fixpoint named_values (n : string) (values_map : list (option string * Z))
    (ws : list Z) : list value :=
  match values_map, ws with
  | (valname, valtype) :: values_map, w :: ws =>
      if decide (valname = Some n)
      then decode_value valtype w :: named_values n values_map ws
      else named_values n values_map ws
  | _, _ => []
  end.

(** Whether some entry named [n] carries the composite bit. *)
Definition composite_name (n : string) (values_map : list (option string * Z)) : bool :=
  existsb (fun entry => bool_decide (entry.1 = Some n) && composite entry.2) values_map.

(** No name is used both with and without the composite bit. *)
Definition unmixed (values_map : list (option string * Z)) : Prop :=
  forall n t1 t2,
    (Some n, t1) ∈ values_map -> (Some n, t2) ∈ values_map ->
    composite t1 = composite t2.

(** The same, as a check that runs. *)
Definition unmixedb (values_map : list (option string * Z)) : bool :=
  forallb (fun e1 =>
    forallb (fun e2 =>
      negb (bool_decide (e1.1 = e2.1)) || bool_decide (e1.1 = None)
      || Bool.eqb (composite e1.2) (composite e2.2)) values_map) values_map.

(** What the parser is expected to store under [n]. *)
Definition expected_entry (n : string) (values_map : list (option string * Z))
    (ws : list Z) : option value :=
  match named_values n values_map ws with
  | [] => None
  | v :: vs =>
      if composite_name n values_map then Some (VList (v :: vs))
      else Some (List.last vs v)
  end.

(** The same, starting from a dictionary that holds [cur] under [n]. *)
Definition merge_entry (n : string) (values_map : list (option string * Z))
    (ws : list Z) (cur : option value) : option value :=
  match named_values n values_map ws with
  | [] => cur
  | v :: vs =>
      if composite_name n values_map
      then Some (VList (match cur with Some (VList l) => l | _ => [] end ++ v :: vs))
      else Some (List.last vs v)
  end.

(** How an iteration of the parser stores the decoded [v]. *)
Definition store (result : Dict) (valname : option string) (comp : bool) (v : value)
    : outcome Dict :=
  match valname with
  | Some valname =>
      if comp then setdefault_append result valname v
      else Ok (<[valname := v]> result)
  | None => Ok result
  end.

(** Entries of a schema with a handled type code and without the
    composite bit. *)
Definition plain_handled (entry : option string * Z) : bool :=
  handled entry.2 && negb (composite entry.2).

(** A response of [count] registers, or an error. *)
Definition well_formed (count : nat) (r : response) : bool :=
  match r with
  | ModbusError => true
  | ReadInputRegistersResponse registers =>
      (length registers =? count)%nat && forallb word16 registers
  end.

Definition request_of (slave address count : Z) : request :=
  {| req_slave := slave; req_address := address; req_count := count |}.

Section Expected.
Context `{Const}.

(** The entries of the energy block, by register position: the totals
    combine the high word (after the low word) as [high * 1000 + low], and
    the four words 6..9 are stepped over. *)
Definition energy_expected (registers : list Z) : list (string * value) :=
  [ (PRODUCED_HEATING_TODAY, VInt (reg registers 0));
    (PRODUCED_HEATING_TOTAL, VInt (reg registers 2 * 1000 + reg registers 1));
    (PRODUCED_WATER_HEATING_TODAY, VInt (reg registers 3));
    (PRODUCED_WATER_HEATING_TOTAL, VInt (reg registers 5 * 1000 + reg registers 4));
    (CONSUMED_HEATING_TODAY, VInt (reg registers 10));
    (CONSUMED_HEATING_TOTAL, VInt (reg registers 12 * 1000 + reg registers 11));
    (CONSUMED_WATER_HEATING_TODAY, VInt (reg registers 13));
    (CONSUMED_WATER_HEATING_TOTAL, VInt (reg registers 15 * 1000 + reg registers 14)) ].

(** The flags of the system-state register [s]. *)
Definition system_state_expected (s : Z) : list (string * value) :=
  [ (IS_HEATING, VBool (Z.testbit s 4));
    (IS_HEATING_WATER, VBool (Z.testbit s 5));
    (CONSUMED_POWER,
       if Z.testbit s 4 || Z.testbit s 5 then HEATPUMPT_AVERAGE_POWER
       else VFloat 0.0%float);
    (IS_SUMMER_MODE, VBool (Z.testbit s 7));
    (IS_COOLING, VBool (Z.testbit s 8)) ].

(** The entries of the main system-values block, by register position:
    register 8 is decoded and dropped, registers 12..16 (10 bytes), 19..20
    (4 bytes) and 23..34 (24 bytes) are stepped over. *)
Definition scaled (registers : list Z) (i : nat) : value :=
  get_isg_scaled_value (to_signed (reg registers i)).

Definition system_values_expected (registers : list Z) : list (string * value) :=
  [ (ACTUAL_TEMPERATURE, scaled registers 0);
    (TARGET_TEMPERATURE, scaled registers 1);
    (ACTUAL_TEMPERATURE_FEK, scaled registers 2);
    (TARGET_TEMPERATURE_FEK, scaled registers 3);
    (ACTUAL_HUMIDITY, scaled registers 4);
    (DEWPOINT_TEMPERATURE, scaled registers 5);
    (OUTDOOR_TEMPERATURE, scaled registers 6);
    (ACTUAL_TEMPERATURE_HK1, scaled registers 7);
    (TARGET_TEMPERATURE_HK1, scaled registers 9);
    (ACTUAL_TEMPERATURE_HK2, scaled registers 10);
    (TARGET_TEMPERATURE_HK2, scaled registers 11);
    (ACTUAL_TEMPERATURE_BUFFER, scaled registers 17);
    (TARGET_TEMPERATURE_BUFFER, scaled registers 18);
    (ACTUAL_TEMPERATURE_WATER, scaled registers 21);
    (TARGET_TEMPERATURE_WATER, scaled registers 22);
    (SOURCE_TEMPERATURE, scaled registers 35) ].

(** The writes [result[k] = v] of a list, first to last. *)
Definition dict_of (entries : list (string * value)) : Dict :=
  foldl (fun result kv => <[kv.1 := kv.2]> result) ∅ entries.

(** The [else] branch of [read_modbus_data] for an identity [id]. *)
Definition default_family (self : StiebelEltronModbusDataCoordinator) (id : Z) : M Dict :=
  energy <- read_modbus_energy self ;;
  system_state <- read_modbus_system_state self ;;
  system_values <- read_modbus_system_values self ;;
  ret (<["controller_id" := VInt id]>
         (dict_update (dict_update (dict_update ∅ energy) system_state) system_values)).

(** What each block of the default family contributes for a response. *)
Definition energy_block (r : response) : Dict :=
  match r with
  | ReadInputRegistersResponse registers => dict_of (energy_expected registers)
  | ModbusError => ∅
  end.

Definition system_state_block (r : response) : Dict :=
  match r with
  | ReadInputRegistersResponse registers => dict_of (system_state_expected (reg registers 0))
  | ModbusError => ∅
  end.

Definition system_values_block (r : response) : Dict :=
  match r with
  | ReadInputRegistersResponse registers => dict_of (system_values_expected registers)
  | ModbusError => ∅
  end.

(** The three blocks of the default family answer with an error or with
    the registers asked for. *)
Definition well_formed_default (self : StiebelEltronModbusDataCoordinator) : bool :=
  well_formed 22 (_client self 3500 22 1) &&
  well_formed 1 (_client self 2500 1 1) &&
  well_formed 40 (_client self 500 40 1).

End Expected.

(** ** Sample devices *)

(** A device that answers the identity read with [id], fails the reads at
    the addresses of [failing], and otherwise returns the registers
    [address, address + 1, ...]. *)
Definition sample_registers (address count : Z) : list Z :=
  map (fun i => address + Z.of_nat i) (seq 0 (Z.to_nat count)).

Definition sample_device (id : response) (failing : list Z)
    : StiebelEltronModbusDataCoordinator :=
  {| _client := fun address count slave =>
       if bool_decide (address ∈ failing) then ModbusError
       else if address =? 5001 then id
       else ReadInputRegistersResponse (sample_registers address count) |}.

(** A device whose system-state register reads [state]. *)
Definition state_device (state : Z) : StiebelEltronModbusDataCoordinator :=
  {| _client := fun address count slave =>
       if address =? 2500 then ReadInputRegistersResponse [state]
       else ReadInputRegistersResponse (sample_registers address count) |}.

(** A schema with a composite name in two parts, a placeholder and a
    plain name that repeats. *)
Definition sample_values_map : list (option string * Z) :=
  [ (Some "a", Z.lor ISG_TYPE_6 ISG_TYPE_C); (None, ISG_TYPE_2);
    (Some "a", Z.lor ISG_TYPE_6 ISG_TYPE_C);
    (Some "b", ISG_TYPE_2); (Some "b", ISG_TYPE_2) ].

Definition sample_words : list Z := [1; 2; 3; 65535; 32768].

(** What a finished computation holds under [key], and how many entries. *)
Definition entry_of (r : outcome Dict) (key : string) : option value :=
  match r with
  | Ok result => result !! key
  | Raise _ => None
  end.

Definition entries_of (r : outcome Dict) : nat :=
  match r with
  | Ok result => size result
  | Raise _ => 0%nat
  end.

(** ** Vocabulary of the parser's exact behaviour *)

(** Whether a dictionary slot holds an object without [append]: anything
    but a list. *)
Definition is_scalar (o : option value) : bool :=
  match o with
  | Some (VList _) => false
  | Some _ => true
  | None => false
  end.

(** After a plain entry, no later entry of the same name carries the
    composite bit. *)
Fixpoint composite_first (values_map : list (option string * Z)) : Prop :=
  match values_map with
  | [] => True
  | (valname, valtype) :: rest =>
      (composite valtype = false ->
       forall n t2, valname = Some n -> (Some n, t2) ∈ rest -> composite t2 = false)
      /\ composite_first rest
  end.

(** The same as a check that runs from left to right, given the names
    [scalar] that hold something else than a list to start with. *)
Fixpoint composite_ok (scalar : string -> bool)
    (values_map : list (option string * Z)) : bool :=
  match values_map with
  | [] => true
  | (None, _) :: rest => composite_ok scalar rest
  | (Some n, valtype) :: rest =>
      if composite valtype then negb (scalar n) && composite_ok scalar rest
      else composite_ok (fun m => if String.eqb m n then true else scalar m) rest
  end.

Definition composite_firstb (values_map : list (option string * Z)) : bool :=
  composite_ok (fun _ => false) values_map.

(** The values decoded for the entries named [n] whose composite bit is
    [comp], in schema order, when entry [k] is paired with word [k]. *)
Fixpoint flagged_values (comp : bool) (n : string)
    (values_map : list (option string * Z)) (ws : list Z) : list value :=
  match values_map, ws with
  | (valname, valtype) :: values_map, w :: ws =>
      if bool_decide (valname = Some n) && Bool.eqb (composite valtype) comp
      then decode_value valtype w :: flagged_values comp n values_map ws
      else flagged_values comp n values_map ws
  | _, _ => []
  end.

(** What the parser leaves under [n]: the value of the last plain entry
    named [n] if there is one, else the list of the values of its composite
    entries, else nothing. *)
Definition expected_stored (n : string) (values_map : list (option string * Z))
    (ws : list Z) : option value :=
  match flagged_values false n values_map ws with
  | v :: vs => Some (List.last vs v)
  | [] =>
      match flagged_values true n values_map ws with
      | [] => None
      | cs => Some (VList cs)
      end
  end.

(** The same, starting from a dictionary that holds [cur] under [n]. *)
Definition merge_stored (n : string) (values_map : list (option string * Z))
    (ws : list Z) (cur : option value) : option value :=
  match flagged_values false n values_map ws with
  | v :: vs => Some (List.last vs v)
  | [] =>
      match flagged_values true n values_map ws with
      | [] => cur
      | cs => Some (VList (match cur with Some (VList l) => l | _ => [] end ++ cs))
      end
  end.

(** A schema that stores a plain value over the list of a composite name. *)
Definition sample_values_map_reuse : list (option string * Z) :=
  [ (Some "a", Z.lor ISG_TYPE_6 ISG_TYPE_C); (Some "a", Z.lor ISG_TYPE_6 ISG_TYPE_C);
    (Some "a", ISG_TYPE_6) ].

(** ** Vocabulary of the further properties *)

(** The requests of a poll of the default family, in the order sent. *)
Definition default_requests : list request :=
  [ request_of 1 5001 1; request_of 1 3500 22;
    request_of 1 2500 1; request_of 1 500 40 ].

(** The bits of the system-state register that the decoder tests. *)
Definition state_mask : Z :=
  Z.lor (Z.lor (Z.shiftl 1 4) (Z.shiftl 1 5)) (Z.lor (Z.shiftl 1 7) (Z.shiftl 1 8)).

(** [p] holds on the [fuel] integers from [w] upwards. *)
Fixpoint all_from (fuel : nat) (w : Z) (p : Z -> bool) : bool :=
  match fuel with
  | O => true
  | S fuel => p w && all_from fuel (w + 1) p
  end.

(** The scaled value of [v] is a float between -3276.75 and 3276.75. *)
Definition scaled_in_range (v : Z) : bool :=
  match get_isg_scaled_value v with
  | VFloat f => PrimFloat.leb (-3276.75)%float f && PrimFloat.leb f 3276.75%float
  | _ => false
  end.

(** The scaled value of [v + 1] is strictly above the scaled value of [v]. *)
Definition scaled_step_up (v : Z) : bool :=
  match get_isg_scaled_value v, get_isg_scaled_value (v + 1) with
  | VFloat f, VFloat g => PrimFloat.ltb f g
  | _, _ => false
  end.

(** What the identity read returns for a response. *)
Definition id_outcome (r : response) : outcome Z :=
  match r with
  | ModbusError => Ok 0
  | ReadInputRegistersResponse registers =>
      if forallb word16 registers then
        match registers with
        | id :: _ => Ok id
        | [] => Raise struct_error
        end
      else Raise struct_error
  end.

(** What a block that decodes up to its register [needed - 1] returns for
    a response. *)
Definition block_outcome (needed : nat) (expected : list Z -> list (string * value))
    (r : response) : outcome Dict :=
  match r with
  | ModbusError => Ok ∅
  | ReadInputRegistersResponse registers =>
      if forallb word16 registers && (needed <=? length registers)%nat
      then Ok (dict_of (expected registers))
      else Raise struct_error
  end.

Section Layout.
Context `{Const}.

(** The key stored for each decoded register of the main system-values
    block. *)
Definition system_values_layout : list (string * nat) :=
  [ (ACTUAL_TEMPERATURE, 0%nat); (TARGET_TEMPERATURE, 1%nat);
    (ACTUAL_TEMPERATURE_FEK, 2%nat); (TARGET_TEMPERATURE_FEK, 3%nat);
    (ACTUAL_HUMIDITY, 4%nat); (DEWPOINT_TEMPERATURE, 5%nat);
    (OUTDOOR_TEMPERATURE, 6%nat); (ACTUAL_TEMPERATURE_HK1, 7%nat);
    (TARGET_TEMPERATURE_HK1, 9%nat); (ACTUAL_TEMPERATURE_HK2, 10%nat);
    (TARGET_TEMPERATURE_HK2, 11%nat); (ACTUAL_TEMPERATURE_BUFFER, 17%nat);
    (TARGET_TEMPERATURE_BUFFER, 18%nat); (ACTUAL_TEMPERATURE_WATER, 21%nat);
    (TARGET_TEMPERATURE_WATER, 22%nat); (SOURCE_TEMPERATURE, 35%nat) ].

(** The key of each total of the energy block with the positions of its
    high and low registers. *)
Definition energy_totals_layout : list (string * (nat * nat)) :=
  [ (PRODUCED_HEATING_TOTAL, (2%nat, 1%nat));
    (PRODUCED_WATER_HEATING_TOTAL, (5%nat, 4%nat));
    (CONSUMED_HEATING_TOTAL, (12%nat, 11%nat));
    (CONSUMED_WATER_HEATING_TOTAL, (15%nat, 14%nat)) ].

(** The outcome of a poll, block by block: the state is the list of the
    requests sent. *)
Definition poll_outcome (self : StiebelEltronModbusDataCoordinator)
    (trace : list request) : list request * outcome Dict :=
  match id_outcome (_client self 5001 1 1) with
  | Raise e => (trace ++ firstn 1 default_requests, Raise e)
  | Ok id =>
      if 103 =? id then
        (trace ++ firstn 1 default_requests,
         Raise (AttributeError "read_modbus_system_values_lw"))
      else
        match block_outcome 16 energy_expected (_client self 3500 22 1) with
        | Raise e => (trace ++ firstn 2 default_requests, Raise e)
        | Ok energy =>
            match block_outcome 1
                    (fun registers => system_state_expected (reg registers 0))
                    (_client self 2500 1 1) with
            | Raise e => (trace ++ firstn 3 default_requests, Raise e)
            | Ok system_state =>
                match block_outcome 36 system_values_expected
                        (_client self 500 40 1) with
                | Raise e => (trace ++ default_requests, Raise e)
                | Ok system_values =>
                    (trace ++ default_requests,
                     Ok (<["controller_id" := VInt id]>
                           (dict_update
                              (dict_update (dict_update ∅ energy) system_state)
                              system_values)))
                end
            end
        end
  end.

End Layout.

(** A device that answers the reads at the addresses of [table] as the
    table says and every other read with the registers asked for. *)
Definition table_device (table : list (Z * response))
    : StiebelEltronModbusDataCoordinator :=
  {| _client := fun address count slave =>
       match find (fun entry => entry.1 =? address) table with
       | Some entry => entry.2
       | None => ReadInputRegistersResponse (sample_registers address count)
       end |}.

(** A device that answers every read with [r]. *)
Definition constant_device (r : response) : StiebelEltronModbusDataCoordinator :=
  {| _client := fun address count slave => r |}.

(** * Properties *)

(** ** The monad *)

Lemma bind_ret {S A B} (a : A) (k : A -> St S B) (s : S) :
  bind (ret a) k s = k a s.
Proof. reflexivity. Qed.

Lemma bind_lift_ok {S A B} (a : A) (k : A -> St S B) (s : S) :
  bind (lift (Ok a)) k s = k a s.
Proof. reflexivity. Qed.

Lemma bind_ok {S A B} (m : St S A) (k : A -> St S B) (s s' : S) (a : A) :
  m s = (s', Ok a) -> bind m k s = k a s'.
Proof. unfold bind. now intros ->. Qed.

Lemma bind_raise {S A B} (m : St S A) (k : A -> St S B) (s s' : S) (e : exn) :
  m s = (s', Raise e) -> bind m k s = (s', Raise e).
Proof. unfold bind. now intros ->. Qed.

(** ** The scaled decode *)

(** C6: for every raw 16-bit two's-complement signed value [v], the
    signed-scaled decode [get_isg_scaled_value] returns the float product
    [v * 0.1] when [v] differs from -32768, and the marker [None], which is
    not a number, when [v] is -32768. *)
Theorem get_isg_scaled_value_spec (v : Z) (Hv : -32768 <= v <= 32767) :
  (v <> -32768 ->
     get_isg_scaled_value v = VFloat (PrimFloat.mul (float_of_Z v) 0.1%float)) /\
  (v = -32768 -> get_isg_scaled_value v = VNone) /\
  (get_isg_scaled_value v = VNone <-> v = -32768).
Proof.
  unfold get_isg_scaled_value.
  destruct (Z.eqb_spec v (-32768)) as [->|Hne]; cbn.
  - repeat split; try reflexivity. intros H; now contradiction H.
  - repeat split; try discriminate; intros; congruence.
Qed.

(** The first example of the specification: raw 235 decodes to 23.5. *)
Lemma get_isg_scaled_value_spec_witness :
  get_isg_scaled_value 235 = VFloat 23.5%float.
Proof.
  refine (eq_trans (proj1 (get_isg_scaled_value_spec 235 _) _) _).
  - lia.
  - lia.
  - reflexivity.
Defined.

(** The second example: raw -50 decodes to -5.0; and the sentinel. *)
Example get_isg_scaled_value_neg50 :
  get_isg_scaled_value (-50) = VFloat (-5.0)%float.
Proof. reflexivity. Qed.

Example get_isg_scaled_value_sentinel :
  get_isg_scaled_value (-32768) = VNone.
Proof. reflexivity. Qed.

(** ** The decoder over a block of registers *)

Lemma word16_range (x : Z) : word16 x = true <-> 0 <= x <= 65535.
Proof. unfold word16. rewrite andb_true_iff, !Z.leb_le. tauto. Qed.

Lemma pack_registers_words (registers : list Z) :
  forallb word16 registers = true ->
  pack_registers registers = Ok (payload_of registers).
Proof.
  induction registers as [|x rest IH]; cbn [forallb pack_registers]; [reflexivity|].
  rewrite andb_true_iff. intros [Hx Hrest].
  unfold pack_H. fold (word16 x). rewrite Hx, (IH Hrest). reflexivity.
Qed.

Lemma fromRegisters_words (registers : list Z) :
  forallb word16 registers = true ->
  fromRegisters registers = Ok (decoder_at registers 0).
Proof.
  intros Hw. unfold fromRegisters. now rewrite (pack_registers_words _ Hw).
Qed.

Lemma skipn_payload_of (registers : list Z) (i : nat) :
  skipn (2 * i) (payload_of registers) = payload_of (skipn i registers).
Proof.
  revert registers. induction i as [|i IH]; intros registers; [reflexivity|].
  destruct registers as [|x rest]; [reflexivity|].
  replace (2 * S i)%nat with (S (S (2 * i))) by lia.
  cbn [payload_of flat_map app skipn]. apply IH.
Qed.

Lemma slice_decoder_at (registers : list Z) (i : nat) :
  slice (_payload (advance 2 (decoder_at registers i)))
        (_pointer (advance 2 (decoder_at registers i)) - 2)
        (_pointer (advance 2 (decoder_at registers i)))
  = firstn 2 (payload_of (skipn i registers)).
Proof.
  unfold slice, advance, decoder_at. cbn [_payload _pointer].
  replace (2 * i + 2 - 2)%nat with (2 * i)%nat by lia.
  replace (2 * i + 2 - 2 * i)%nat with 2%nat by lia.
  now rewrite skipn_payload_of.
Qed.

Lemma advance_decoder_at (registers : list Z) (i k : nat) :
  advance (2 * k) (decoder_at registers i) = decoder_at registers (i + k).
Proof. unfold advance, decoder_at. cbn [_payload _pointer]. f_equal. lia. Qed.

Lemma skipn_lookup (registers : list Z) (i : nat) (w : Z) :
  registers !! i = Some w -> exists rest, skipn i registers = w :: rest.
Proof.
  revert i. induction registers as [|x rest IH]; intros [|i] Hl; try discriminate.
  - injection Hl as ->. now exists rest.
  - cbn in Hl |- *. now apply IH.
Qed.

Lemma decode_16bit_uint_at (registers : list Z) (i : nat) (w : Z) :
  registers !! i = Some w ->
  decode_16bit_uint (decoder_at registers i) = (decoder_at registers (S i), Ok w).
Proof.
  intros Hl. unfold decode_16bit_uint. cbv zeta. rewrite slice_decoder_at.
  destruct (skipn_lookup _ _ _ Hl) as [rest ->].
  cbn [payload_of flat_map app firstn unpack_H].
  replace (w / 256 * 256 + w mod 256) with w by (pose proof (Z.div_mod w 256); lia).
  f_equal. unfold advance, decoder_at. cbn [_payload _pointer]. f_equal. lia.
Qed.

Lemma decode_16bit_int_at (registers : list Z) (i : nat) (w : Z) :
  registers !! i = Some w ->
  decode_16bit_int (decoder_at registers i) = (decoder_at registers (S i), Ok (to_signed w)).
Proof.
  intros Hl. unfold decode_16bit_int. cbv zeta. rewrite slice_decoder_at.
  destruct (skipn_lookup _ _ _ Hl) as [rest ->].
  cbn [payload_of flat_map app firstn unpack_h]. cbv zeta.
  replace (w / 256 * 256 + w mod 256) with w by (pose proof (Z.div_mod w 256); lia).
  f_equal. unfold advance, decoder_at. cbn [_payload _pointer]. f_equal. lia.
Qed.

Lemma skip_bytes_at (registers : list Z) (i k : nat) :
  skip_bytes (2 * k) (decoder_at registers i) = (decoder_at registers (i + k), Ok tt).
Proof. unfold skip_bytes. now rewrite advance_decoder_at. Qed.

(** A decode with less than a word left raises [struct.error]. *)
Lemma decode_16bit_uint_exhausted (d : BinaryPayloadDecoder) :
  (length (_payload d) < _pointer d + 2)%nat ->
  decode_16bit_uint d = (advance 2 d, Raise struct_error).
Proof.
  intros Hlen. unfold decode_16bit_uint, slice, advance. cbn [_payload _pointer].
  replace (_pointer d + 2 - (_pointer d + 2 - 2))%nat with 2%nat by lia.
  replace (_pointer d + 2 - 2)%nat with (_pointer d) by lia.
  f_equal.
  pose proof (length_skipn (_pointer d) (_payload d)) as Hs.
  destruct (skipn (_pointer d) (_payload d)) as [|a [|b t]]; cbn in *; try reflexivity; lia.
Qed.

Lemma decode_16bit_int_exhausted (d : BinaryPayloadDecoder) :
  (length (_payload d) < _pointer d + 2)%nat ->
  decode_16bit_int d = (advance 2 d, Raise struct_error).
Proof.
  intros Hlen. unfold decode_16bit_int, slice, advance. cbn [_payload _pointer].
  replace (_pointer d + 2 - (_pointer d + 2 - 2))%nat with 2%nat by lia.
  replace (_pointer d + 2 - 2)%nat with (_pointer d) by lia.
  f_equal.
  pose proof (length_skipn (_pointer d) (_payload d)) as Hs.
  destruct (skipn (_pointer d) (_payload d)) as [|a [|b t]]; cbn in *; try reflexivity; lia.
Qed.

(** With a word left, a decode returns and advances by two bytes. *)
Lemma decode_16bit_uint_available (d : BinaryPayloadDecoder) :
  (_pointer d + 2 <= length (_payload d))%nat ->
  exists v, decode_16bit_uint d = (advance 2 d, Ok v).
Proof.
  intros Hlen. unfold decode_16bit_uint, slice, advance. cbn [_payload _pointer].
  replace (_pointer d + 2 - (_pointer d + 2 - 2))%nat with 2%nat by lia.
  replace (_pointer d + 2 - 2)%nat with (_pointer d) by lia.
  pose proof (length_skipn (_pointer d) (_payload d)) as Hs.
  destruct (skipn (_pointer d) (_payload d)) as [|a [|b t]]; cbn in *; try lia.
  eexists. reflexivity.
Qed.

Lemma decode_16bit_int_available (d : BinaryPayloadDecoder) :
  (_pointer d + 2 <= length (_payload d))%nat ->
  exists v, decode_16bit_int d = (advance 2 d, Ok v).
Proof.
  intros Hlen. unfold decode_16bit_int, slice, advance. cbn [_payload _pointer].
  replace (_pointer d + 2 - (_pointer d + 2 - 2))%nat with 2%nat by lia.
  replace (_pointer d + 2 - 2)%nat with (_pointer d) by lia.
  pose proof (length_skipn (_pointer d) (_payload d)) as Hs.
  destruct (skipn (_pointer d) (_payload d)) as [|a [|b t]]; cbn in *; try lia.
  eexists. reflexivity.
Qed.

Lemma skip_bytes_even (registers : list Z) (i nbytes : nat) :
  (nbytes mod 2 = 0)%nat ->
  skip_bytes nbytes (decoder_at registers i)
  = (decoder_at registers (i + nbytes / 2), Ok tt).
Proof.
  intros Heven. rewrite <- skip_bytes_at. do 2 f_equal.
  pose proof (Nat.div_mod_eq nbytes 2). lia.
Qed.

(** Steps through a straight-line sequence of decoder calls on a block
    whose registers are known by position. *)
Ltac decode_step :=
  first
    [ erewrite (bind_ok decode_16bit_uint) by (apply decode_16bit_uint_at; reflexivity)
    | erewrite (bind_ok decode_16bit_int) by (apply decode_16bit_int_at; reflexivity)
    | erewrite (bind_ok (skip_bytes _)) by (apply skip_bytes_even; reflexivity) ].

(** ** Dictionaries written key by key *)

Lemma dict_of_snoc (entries : list (string * value)) (kv : string * value) :
  dict_of (entries ++ [kv]) = <[kv.1 := kv.2]> (dict_of entries).
Proof. unfold dict_of. now rewrite foldl_app. Qed.

Lemma dict_of_lookup_None (entries : list (string * value)) (k : string) :
  k ∉ entries.*1 -> dict_of entries !! k = None.
Proof.
  induction entries as [|kv entries IH] using rev_ind; intros Hk.
  - apply lookup_empty.
  - rewrite dict_of_snoc. rewrite fmap_app, elem_of_app in Hk. cbn in Hk.
    rewrite lookup_insert_ne.
    + apply IH. tauto.
    + intros <-. apply Hk. right. apply list_elem_of_here.
Qed.

Lemma dict_of_lookup (entries : list (string * value)) (k : string) (v : value) :
  NoDup entries.*1 -> (k, v) ∈ entries -> dict_of entries !! k = Some v.
Proof.
  induction entries as [|kv entries IH] using rev_ind; intros Hnd Hin.
  - now apply elem_of_nil in Hin.
  - rewrite dict_of_snoc. rewrite fmap_app in Hnd. cbn in Hnd.
    apply NoDup_app in Hnd as (Hnd & Hfresh & _).
    apply elem_of_app in Hin as [Hin | Hin].
    + rewrite lookup_insert_ne; [now apply IH|].
      intros <-. apply (Hfresh kv.1); [|apply list_elem_of_here].
      apply list_elem_of_fmap. now exists (kv.1, v).
    + apply list_elem_of_singleton in Hin as <-. apply lookup_insert_eq.
Qed.

(** ** The bit tests of the system-state register *)

Lemma land_bit (s n : Z) :
  0 <= n -> negb (Z.land s (Z.shiftl 1 n) =? 0) = Z.testbit s n.
Proof.
  intros Hn. rewrite Z.shiftl_1_l.
  destruct (Z.testbit s n) eqn:Hbit.
  - apply negb_true_iff, Z.eqb_neq. intros Hz.
    assert (Z.testbit (Z.land s (2 ^ n)) n = true) as Hb
      by (rewrite Z.land_spec, Z.pow2_bits_true, Hbit; [reflexivity | lia]).
    rewrite Hz, Z.bits_0 in Hb. discriminate.
  - apply negb_false_iff, Z.eqb_eq, Z.bits_inj'. intros m Hm.
    rewrite Z.land_spec, Z.bits_0, (Z.pow2_bits_eqb n m Hn).
    destruct (Z.eqb_spec n m) as [->|_]; [now rewrite Hbit | apply andb_false_r].
Qed.

(** ** The register blocks of the default family *)

Section Blocks.
Context `{Const}.

Lemma read_step {A} (self : StiebelEltronModbusDataCoordinator)
    (slave address count : Z) (k : response -> M A) (trace : list request) :
  bind (read_input_registers self slave address count) k trace
  = k (_client self address count slave) (trace ++ [request_of slave address count]).
Proof. reflexivity. Qed.

Lemma read_modbus_system_state_error
    (self : StiebelEltronModbusDataCoordinator) (trace : list request) :
  _client self 2500 1 1 = ModbusError ->
  read_modbus_system_state self trace = (trace ++ [request_of 1 2500 1], Ok ∅).
Proof.
  intros Hread. unfold read_modbus_system_state. cbv zeta.
  rewrite read_step, Hread. reflexivity.
Qed.

Lemma read_modbus_system_state_registers
    (self : StiebelEltronModbusDataCoordinator) (trace : list request) (s : Z) :
  _client self 2500 1 1 = ReadInputRegistersResponse [s] ->
  word16 s = true ->
  read_modbus_system_state self trace
  = (trace ++ [request_of 1 2500 1], Ok (dict_of (system_state_expected s))).
Proof.
  intros Hread Hs. unfold read_modbus_system_state. cbv zeta.
  rewrite read_step, Hread.
  rewrite fromRegisters_words by (cbn; now rewrite Hs).
  rewrite bind_lift_ok. unfold run.
  decode_step. unfold ret, lift. cbn [snd].
  rewrite !land_bit by lia.
  rewrite (orb_comm (Z.testbit s 5)). reflexivity.
Qed.

(** C8: a successful system-state read of one register [s] sets
    [is_heating] to bit 4 of [s], [is_heating_water] to bit 5,
    [is_summer_mode] to bit 7, [is_cooling] to bit 8, and [consumed_power]
    to the constant [HEATPUMPT_AVERAGE_POWER] when bit 4 or bit 5 is set and
    to 0.0 otherwise; a read error yields the empty dictionary for this
    block and no exception. *)
Theorem read_modbus_system_state_spec
    (self : StiebelEltronModbusDataCoordinator) (trace : list request) :
  (forall s : Z,
      _client self 2500 1 1 = ReadInputRegistersResponse [s] ->
      word16 s = true ->
      NoDup [IS_HEATING; IS_HEATING_WATER; CONSUMED_POWER; IS_SUMMER_MODE; IS_COOLING] ->
      exists result : Dict,
        read_modbus_system_state self trace
        = (trace ++ [request_of 1 2500 1], Ok result) /\
        result !! IS_HEATING = Some (VBool (Z.testbit s 4)) /\
        result !! IS_HEATING_WATER = Some (VBool (Z.testbit s 5)) /\
        result !! IS_SUMMER_MODE = Some (VBool (Z.testbit s 7)) /\
        result !! IS_COOLING = Some (VBool (Z.testbit s 8)) /\
        result !! CONSUMED_POWER
        = Some (if Z.testbit s 4 || Z.testbit s 5 then HEATPUMPT_AVERAGE_POWER
                else VFloat 0.0%float) /\
        dom result
        = {[IS_HEATING; IS_HEATING_WATER; CONSUMED_POWER; IS_SUMMER_MODE; IS_COOLING]}) /\
  (_client self 2500 1 1 = ModbusError ->
   read_modbus_system_state self trace = (trace ++ [request_of 1 2500 1], Ok ∅)).
Proof.
  split; [|apply read_modbus_system_state_error].
  intros s Hread Hs Hkeys.
  exists (dict_of (system_state_expected s)).
  split; [now apply read_modbus_system_state_registers|].
  assert (forall k v, (k, v) ∈ system_state_expected s ->
            dict_of (system_state_expected s) !! k = Some v) as Hl
    by (intros k v; now apply dict_of_lookup).
  repeat split; try (apply Hl; unfold system_state_expected; set_solver).
  unfold dict_of, system_state_expected. cbn [foldl fst snd].
  rewrite !dom_insert_L, dom_empty_L. set_solver.
Qed.

(** Splits a block of known length into its registers. *)
Ltac registers_by_length registers Hlen :=
  repeat (destruct registers as [|? registers]; [discriminate Hlen|]);
  destruct registers; [clear Hlen | discriminate Hlen].

Lemma read_modbus_energy_error
    (self : StiebelEltronModbusDataCoordinator) (trace : list request) :
  _client self 3500 22 1 = ModbusError ->
  read_modbus_energy self trace = (trace ++ [request_of 1 3500 22], Ok ∅).
Proof.
  intros Hread. unfold read_modbus_energy. cbv zeta.
  rewrite read_step, Hread. reflexivity.
Qed.

Lemma read_modbus_energy_registers
    (self : StiebelEltronModbusDataCoordinator) (trace : list request)
    (registers : list Z) :
  _client self 3500 22 1 = ReadInputRegistersResponse registers ->
  length registers = 22%nat ->
  forallb word16 registers = true ->
  read_modbus_energy self trace
  = (trace ++ [request_of 1 3500 22], Ok (dict_of (energy_expected registers))).
Proof.
  intros Hread Hlen Hwords. unfold read_modbus_energy. cbv zeta.
  rewrite read_step, Hread, (fromRegisters_words _ Hwords), bind_lift_ok.
  clear Hread Hwords. unfold run.
  registers_by_length registers Hlen.
  repeat decode_step. reflexivity.
Qed.

(** C7: a successful energy-block read of 22 registers decodes twelve
    unsigned words in the order produced-heating today / total low / total
    high, produced-water today / total low / total high (registers 0..5),
    steps over 8 bytes (registers 6..9), then consumed-heating today /
    total low / total high and consumed-water today / total low / total
    high (registers 10..15); each total stored in the result is
    [high * 1000 + low]. *)
Theorem read_modbus_energy_spec
    (self : StiebelEltronModbusDataCoordinator) (trace : list request)
    (registers : list Z) :
  _client self 3500 22 1 = ReadInputRegistersResponse registers ->
  length registers = 22%nat ->
  forallb word16 registers = true ->
  exists result : Dict,
    read_modbus_energy self trace = (trace ++ [request_of 1 3500 22], Ok result) /\
    result = dict_of (energy_expected registers) /\
    (NoDup (energy_expected registers).*1 ->
     result !! PRODUCED_HEATING_TODAY = Some (VInt (reg registers 0)) /\
     result !! PRODUCED_HEATING_TOTAL
       = Some (VInt (reg registers 2 * 1000 + reg registers 1)) /\
     result !! PRODUCED_WATER_HEATING_TODAY = Some (VInt (reg registers 3)) /\
     result !! PRODUCED_WATER_HEATING_TOTAL
       = Some (VInt (reg registers 5 * 1000 + reg registers 4)) /\
     result !! CONSUMED_HEATING_TODAY = Some (VInt (reg registers 10)) /\
     result !! CONSUMED_HEATING_TOTAL
       = Some (VInt (reg registers 12 * 1000 + reg registers 11)) /\
     result !! CONSUMED_WATER_HEATING_TODAY = Some (VInt (reg registers 13)) /\
     result !! CONSUMED_WATER_HEATING_TOTAL
       = Some (VInt (reg registers 15 * 1000 + reg registers 14))).
Proof.
  intros Hread Hlen Hwords. exists (dict_of (energy_expected registers)).
  split; [now apply read_modbus_energy_registers|]. split; [reflexivity|].
  intros Hkeys.
  assert (forall k v, (k, v) ∈ energy_expected registers ->
            dict_of (energy_expected registers) !! k = Some v) as Hl
    by (intros k v; now apply dict_of_lookup).
  repeat split; apply Hl; unfold energy_expected; rewrite !elem_of_cons; tauto.
Qed.

Lemma read_modbus_system_values_error
    (self : StiebelEltronModbusDataCoordinator) (trace : list request) :
  _client self 500 40 1 = ModbusError ->
  read_modbus_system_values self trace = (trace ++ [request_of 1 500 40], Ok ∅).
Proof.
  intros Hread. unfold read_modbus_system_values. cbv zeta.
  rewrite read_step, Hread. reflexivity.
Qed.

Lemma read_modbus_system_values_registers
    (self : StiebelEltronModbusDataCoordinator) (trace : list request)
    (registers : list Z) :
  _client self 500 40 1 = ReadInputRegistersResponse registers ->
  length registers = 40%nat ->
  forallb word16 registers = true ->
  read_modbus_system_values self trace
  = (trace ++ [request_of 1 500 40], Ok (dict_of (system_values_expected registers))).
Proof.
  intros Hread Hlen Hwords. unfold read_modbus_system_values. cbv zeta.
  rewrite read_step, Hread, (fromRegisters_words _ Hwords), bind_lift_ok.
  clear Hread Hwords. unfold run.
  registers_by_length registers Hlen.
  repeat decode_step. reflexivity.
Qed.

(** C9: a successful main system-values read of 40 registers walks the
    fixed field sequence: registers 0..7 are the first eight fields,
    register 8 (the first decode of the HK1 target) is consumed and dropped,
    register 9 is the HK1 target kept in the result, registers 10 and 11 are
    the HK2 actual and target, 10 bytes (registers 12..16) are stepped over
    after the HK2 target, 4 bytes (registers 19..20) before the water actual
    temperature at register 21, and 24 bytes (registers 23..34) before the
    source temperature at register 35. *)
Theorem read_modbus_system_values_spec
    (self : StiebelEltronModbusDataCoordinator) (trace : list request)
    (registers : list Z) :
  _client self 500 40 1 = ReadInputRegistersResponse registers ->
  length registers = 40%nat ->
  forallb word16 registers = true ->
  exists result : Dict,
    read_modbus_system_values self trace = (trace ++ [request_of 1 500 40], Ok result) /\
    result = dict_of (system_values_expected registers) /\
    (NoDup (system_values_expected registers).*1 ->
     (forall k v, (k, v) ∈ system_values_expected registers -> result !! k = Some v) /\
     result !! ACTUAL_TEMPERATURE_HK1 = Some (scaled registers 7) /\
     result !! TARGET_TEMPERATURE_HK1 = Some (scaled registers 9) /\
     result !! ACTUAL_TEMPERATURE_HK2 = Some (scaled registers 10) /\
     result !! TARGET_TEMPERATURE_HK2 = Some (scaled registers 11) /\
     result !! ACTUAL_TEMPERATURE_BUFFER = Some (scaled registers 17) /\
     result !! TARGET_TEMPERATURE_BUFFER = Some (scaled registers 18) /\
     result !! ACTUAL_TEMPERATURE_WATER = Some (scaled registers 21) /\
     result !! TARGET_TEMPERATURE_WATER = Some (scaled registers 22) /\
     result !! SOURCE_TEMPERATURE = Some (scaled registers 35)) /\
    (forall x : Z,
       dict_of (system_values_expected (<[8%nat := x]> registers)) = result).
Proof.
  intros Hread Hlen Hwords. exists (dict_of (system_values_expected registers)).
  split; [now apply read_modbus_system_values_registers|]. split; [reflexivity|].
  split.
  - intros Hkeys.
    assert (forall k v, (k, v) ∈ system_values_expected registers ->
              dict_of (system_values_expected registers) !! k = Some v) as Hl
      by (intros k v; now apply dict_of_lookup).
    split; [exact Hl|].
    repeat split; apply Hl; unfold system_values_expected;
      rewrite !elem_of_cons; tauto.
  - intros x. clear Hread Hwords.
    registers_by_length registers Hlen. reflexivity.
Qed.

End Blocks.

(** ** The schema-driven parser *)

Section Parser.

Lemma strip_composite (valtype : Z) :
  (if composite valtype then Z.land valtype (Z.lnot ISG_TYPE_C) else valtype)
  = base_type valtype.
Proof.
  unfold base_type. destruct (composite valtype) eqn:Hc; [reflexivity|].
  unfold composite in Hc. change ISG_TYPE_C with (Z.shiftl 1 7) in Hc.
  rewrite land_bit in Hc by lia.
  apply Z.bits_inj'. intros m Hm.
  rewrite Z.land_spec, Z.lnot_spec by assumption.
  change ISG_TYPE_C with (2 ^ 7). rewrite Z.pow2_bits_eqb by lia.
  destruct (Z.eqb_spec 7 m) as [<-|_]; [now rewrite Hc | now rewrite andb_true_r].
Qed.

Lemma parse_entry_eq (valname : option string) (valtype : Z) (result : Dict) :
  parse_entry (valname, valtype) result
  = (value <-
       (if ISG_TYPE_2 =? base_type valtype then
          temp <- decode_16bit_int ;; ret (get_isg_scaled_value temp)
        else if ISG_TYPE_6 =? base_type valtype then
          v <- decode_16bit_uint ;; ret (VInt v)
        else raise (ValueError "Unknown register type!")) ;;
     lift (store result valname (composite valtype) value)).
Proof.
  unfold parse_entry. cbv zeta. fold (composite valtype).
  rewrite strip_composite. f_equal.
  destruct valname as [n|]; [|reflexivity].
  destruct (composite valtype); reflexivity.
Qed.

Lemma parse_entry_unhandled (valname : option string) (valtype : Z)
    (result : Dict) (d : BinaryPayloadDecoder) :
  handled valtype = false ->
  parse_entry (valname, valtype) result d
  = (d, Raise (ValueError "Unknown register type!")).
Proof.
  unfold handled. rewrite orb_false_iff, !(Z.eqb_sym (base_type valtype)).
  intros [H2 H6]. rewrite parse_entry_eq, H2, H6. reflexivity.
Qed.

Lemma parse_entry_at (valname : option string) (valtype : Z) (result : Dict)
    (registers : list Z) (i : nat) (w : Z) :
  handled valtype = true ->
  registers !! i = Some w ->
  parse_entry (valname, valtype) result (decoder_at registers i)
  = (decoder_at registers (S i),
     store result valname (composite valtype) (decode_value valtype w)).
Proof.
  unfold handled, decode_value. rewrite !(Z.eqb_sym (base_type valtype)).
  intros Hh Hw. rewrite parse_entry_eq. revert Hh.
  destruct (ISG_TYPE_2 =? base_type valtype); intros Hh.
  - erewrite bind_ok;
      [|erewrite bind_ok by (apply decode_16bit_int_at; exact Hw); reflexivity].
    reflexivity.
  - cbn [orb] in Hh. rewrite Hh.
    erewrite bind_ok;
      [|erewrite bind_ok by (apply decode_16bit_uint_at; exact Hw); reflexivity].
    reflexivity.
Qed.

Lemma parse_entry_available (valname : option string) (valtype : Z) (result : Dict)
    (d : BinaryPayloadDecoder) :
  handled valtype = true ->
  (_pointer d + 2 <= length (_payload d))%nat ->
  exists v, parse_entry (valname, valtype) result d
            = (advance 2 d, store result valname (composite valtype) v).
Proof.
  unfold handled. rewrite !(Z.eqb_sym (base_type valtype)).
  intros Hh Hlen. rewrite parse_entry_eq. revert Hh.
  destruct (ISG_TYPE_2 =? base_type valtype); intros Hh.
  - destruct (decode_16bit_int_available d Hlen) as [v Hv].
    exists (get_isg_scaled_value v).
    erewrite bind_ok; [|erewrite bind_ok by exact Hv; reflexivity]. reflexivity.
  - cbn [orb] in Hh. rewrite Hh.
    destruct (decode_16bit_uint_available d Hlen) as [v Hv].
    exists (VInt v).
    erewrite bind_ok; [|erewrite bind_ok by exact Hv; reflexivity]. reflexivity.
Qed.

Lemma parse_entry_exhausted (valname : option string) (valtype : Z) (result : Dict)
    (d : BinaryPayloadDecoder) :
  handled valtype = true ->
  (length (_payload d) < _pointer d + 2)%nat ->
  parse_entry (valname, valtype) result d = (advance 2 d, Raise struct_error).
Proof.
  unfold handled. rewrite !(Z.eqb_sym (base_type valtype)).
  intros Hh Hlen. rewrite parse_entry_eq. revert Hh.
  destruct (ISG_TYPE_2 =? base_type valtype); intros Hh.
  - erewrite bind_raise;
      [|erewrite bind_raise by (now apply decode_16bit_int_exhausted); reflexivity].
    reflexivity.
  - cbn [orb] in Hh. rewrite Hh.
    erewrite bind_raise;
      [|erewrite bind_raise by (now apply decode_16bit_uint_exhausted); reflexivity].
    reflexivity.
Qed.

Lemma parse_loop_app (before after : list (option string * Z)) (result : Dict)
    (d : BinaryPayloadDecoder) :
  parse_loop (before ++ after) result d
  = (result <- parse_loop before result ;; parse_loop after result) d.
Proof.
  revert result d. induction before as [|entry before IH]; intros result d.
  - reflexivity.
  - cbn [app parse_loop]. unfold bind in *.
    destruct (parse_entry entry result d) as [d1 [r1|e]]; [apply IH | reflexivity].
Qed.

Lemma parse_loop_cons_ok (entry : option string * Z) (rest : list (option string * Z))
    (result result1 : Dict) (d d1 : BinaryPayloadDecoder) :
  parse_entry entry result d = (d1, Ok result1) ->
  parse_loop (entry :: rest) result d = parse_loop rest result1 d1.
Proof. intros Hstep. cbn [parse_loop]. now apply bind_ok. Qed.

Lemma parse_loop_cons_raise (entry : option string * Z) (rest : list (option string * Z))
    (result : Dict) (d d1 : BinaryPayloadDecoder) (e : exn) :
  parse_entry entry result d = (d1, Raise e) ->
  parse_loop (entry :: rest) result d = (d1, Raise e).
Proof. intros Hstep. cbn [parse_loop]. now apply bind_raise. Qed.

(** *** What ends up under each name *)

Lemma named_values_elem (n : string) (values_map : list (option string * Z))
    (ws : list Z) :
  named_values n values_map ws <> [] -> exists t, (Some n, t) ∈ values_map.
Proof.
  revert ws. induction values_map as [|[valname valtype] rest IH]; intros ws Hne.
  - now contradiction Hne.
  - destruct ws as [|w ws]; [now contradiction Hne|]. cbn [named_values] in Hne.
    destruct (decide (valname = Some n)) as [->|_].
    + exists valtype. apply list_elem_of_here.
    + destruct (IH ws Hne) as [t Ht]. exists t. by apply list_elem_of_further.
Qed.

Lemma composite_name_true (n : string) (values_map : list (option string * Z)) :
  composite_name n values_map = true <->
  exists t, (Some n, t) ∈ values_map /\ composite t = true.
Proof.
  unfold composite_name. rewrite existsb_exists. split.
  - intros [[valname t] [Hin Hb]]. cbn in Hb.
    apply andb_true_iff in Hb as [Hn Hc]. apply bool_decide_eq_true_1 in Hn as ->.
    exists t. split; [now apply list_elem_of_In | exact Hc].
  - intros [t [Hin Hc]]. exists (Some n, t). split; [now apply list_elem_of_In|].
    cbn. now rewrite bool_decide_eq_true_2, Hc.
Qed.

Lemma composite_name_cons_other (n m : string) (valtype : Z)
    (rest : list (option string * Z)) :
  n <> m ->
  composite_name n ((Some m, valtype) :: rest) = composite_name n rest.
Proof.
  intros Hne. unfold composite_name. cbn [existsb fst snd].
  rewrite bool_decide_eq_false_2 by congruence. reflexivity.
Qed.

Lemma unmixed_tail (entry : option string * Z) (rest : list (option string * Z)) :
  unmixed (entry :: rest) -> unmixed rest.
Proof.
  intros Hu n t1 t2 H1 H2.
  apply (Hu n t1 t2); by apply list_elem_of_further.
Qed.

Lemma unmixed_head (m : string) (valtype : Z) (rest : list (option string * Z)) :
  unmixed ((Some m, valtype) :: rest) ->
  (exists t, (Some m, t) ∈ rest) ->
  composite_name m rest = composite valtype.
Proof.
  intros Hu [t Ht].
  assert (composite t = composite valtype) as Ht'
    by (apply (Hu m); [by apply list_elem_of_further | apply list_elem_of_here]).
  destruct (composite_name m rest) eqn:Hcn.
  - apply composite_name_true in Hcn as [t2 [H2 Hc]]. rewrite <- Hc.
    apply (Hu m); [by apply list_elem_of_further | apply list_elem_of_here].
  - destruct (composite valtype) eqn:Hc; [|reflexivity].
    assert (composite_name m rest = true) as Hcn'
      by (apply composite_name_true; now exists t).
    congruence.
Qed.

Lemma last_cons (v v' : value) (vs : list value) :
  List.last (v' :: vs) v = List.last vs v'.
Proof.
  revert v v'. induction vs as [|x vs IH]; intros v v'; [reflexivity|].
  change (List.last (v' :: x :: vs) v) with (List.last (x :: vs) v).
  now rewrite (IH v x), (IH v' x).
Qed.

(** The step of the induction: how storing the value of the first entry
    relates the expectations for the whole schema and for its tail. *)
Lemma store_step (valname : option string) (valtype : Z)
    (rest : list (option string * Z)) (result : Dict) (w : Z) (ws : list Z) :
  unmixed ((valname, valtype) :: rest) ->
  (forall n, composite_name n ((valname, valtype) :: rest) = true ->
             result !! n = None \/ exists l, result !! n = Some (VList l)) ->
  exists result1 : Dict,
    store result valname (composite valtype) (decode_value valtype w) = Ok result1 /\
    (forall n, composite_name n rest = true ->
               result1 !! n = None \/ exists l, result1 !! n = Some (VList l)) /\
    (forall n, merge_entry n rest ws (result1 !! n)
               = merge_entry n ((valname, valtype) :: rest) (w :: ws) (result !! n)).
Proof.
  intros Hu Hinv. set (v := decode_value valtype w).
  destruct valname as [m|]; cbn [store].
  2:{ exists result. split; [reflexivity|]. split.
      - intros n Hn. apply Hinv. unfold composite_name in *. cbn [existsb fst].
        now rewrite Hn, orb_true_r.
      - intros n. unfold merge_entry, composite_name. cbn [named_values existsb fst].
        rewrite decide_False by discriminate.
        now rewrite bool_decide_eq_false_2 by discriminate. }
  destruct (composite valtype) eqn:Hc.
  - (* a composite entry *)
    assert (composite_name m ((Some m, valtype) :: rest) = true) as Hcm
      by (apply composite_name_true; exists valtype; split;
          [apply list_elem_of_here | exact Hc]).
    set (l0 := match result !! m with Some (VList l) => l | _ => [] end).
    exists (<[m := VList (l0 ++ [v])]> result). split; [|split].
    + unfold setdefault_append, l0.
      destruct (Hinv m Hcm) as [-> | [l ->]]; reflexivity.
    + intros n Hn. destruct (decide (n = m)) as [->|Hne].
      * right. eexists. apply lookup_insert_eq.
      * rewrite lookup_insert_ne by congruence. apply Hinv.
        now rewrite composite_name_cons_other.
    + intros n. destruct (decide (n = m)) as [->|Hne].
      * rewrite lookup_insert_eq. unfold merge_entry. cbn [named_values].
        rewrite decide_True by reflexivity. rewrite Hcm. fold v. fold l0.
        destruct (named_values m rest ws) as [|v' vs] eqn:Hnv; [reflexivity|].
        rewrite (unmixed_head m valtype rest Hu), Hc
          by (apply (named_values_elem m rest ws); now rewrite Hnv).
        now rewrite <- app_assoc.
      * rewrite lookup_insert_ne by congruence. unfold merge_entry.
        cbn [named_values]. rewrite decide_False by congruence.
        now rewrite composite_name_cons_other.
  - (* a plain entry *)
    exists (<[m := v]> result). split; [reflexivity|]. split.
    + intros n Hn. destruct (decide (n = m)) as [->|Hne].
      * rewrite (unmixed_head m valtype rest Hu), Hc in Hn; [discriminate|].
        apply composite_name_true in Hn as [t [Ht _]]. now exists t.
      * rewrite lookup_insert_ne by congruence. apply Hinv.
        now rewrite composite_name_cons_other.
    + intros n. destruct (decide (n = m)) as [->|Hne].
      * rewrite lookup_insert_eq. unfold merge_entry. cbn [named_values].
        rewrite decide_True by reflexivity. fold v.
        assert (composite_name m ((Some m, valtype) :: rest) = false) as ->.
        { destruct (composite_name m ((Some m, valtype) :: rest)) eqn:Hcn;
            [|reflexivity].
          apply composite_name_true in Hcn as [t [Ht Hct]].
          rewrite <- Hct, <- Hc. apply (Hu m); [exact Ht | apply list_elem_of_here]. }
        destruct (named_values m rest ws) as [|v' vs] eqn:Hnv; [reflexivity|].
        rewrite (unmixed_head m valtype rest Hu), Hc
          by (apply (named_values_elem m rest ws); now rewrite Hnv).
        now rewrite last_cons.
      * rewrite lookup_insert_ne by congruence. unfold merge_entry.
        cbn [named_values]. rewrite decide_False by congruence.
        now rewrite composite_name_cons_other.
Qed.

Lemma parse_loop_spec (values_map : list (option string * Z)) :
  forall (registers : list Z) (i : nat) (result : Dict),
    forallb (fun entry => handled entry.2) values_map = true ->
    unmixed values_map ->
    (i + length values_map <= length registers)%nat ->
    (forall n, composite_name n values_map = true ->
               result !! n = None \/ exists l, result !! n = Some (VList l)) ->
    exists result' : Dict,
      parse_loop values_map result (decoder_at registers i)
      = (decoder_at registers (i + length values_map), Ok result') /\
      forall n, result' !! n
                = merge_entry n values_map (skipn i registers) (result !! n).
Proof.
  induction values_map as [|[valname valtype] rest IH];
    intros registers i result Hh Hu Hlen Hinv.
  - exists result. rewrite Nat.add_0_r. split; reflexivity.
  - cbn [forallb snd] in Hh. apply andb_true_iff in Hh as [Hh1 Hh].
    cbn [length] in Hlen.
    destruct (registers !! i) as [w|] eqn:Hw;
      [|apply lookup_ge_None in Hw; lia].
    destruct (store_step valname valtype rest result w (skipn (S i) registers) Hu Hinv)
      as (result1 & Hstore & Hinv1 & Hmerge).
    destruct (IH registers (S i) result1 Hh (unmixed_tail _ _ Hu) ltac:(lia) Hinv1)
      as (result' & Hloop & Hlookup).
    exists result'. split.
    + erewrite parse_loop_cons_ok
        by (rewrite (parse_entry_at _ _ _ _ _ _ Hh1 Hw), Hstore; reflexivity).
      rewrite Hloop. do 2 f_equal. cbn [length]. lia.
    + intros n. rewrite Hlookup, Hmerge. now rewrite (drop_S _ _ _ Hw).
Qed.

Lemma unmixedb_sound (values_map : list (option string * Z)) :
  unmixedb values_map = true -> unmixed values_map.
Proof.
  unfold unmixedb. rewrite forallb_forall. intros Hb n t1 t2 H1 H2.
  apply list_elem_of_In in H1, H2.
  specialize (Hb _ H1). rewrite forallb_forall in Hb. specialize (Hb _ H2).
  cbn [fst snd] in Hb.
  rewrite bool_decide_eq_true_2, bool_decide_eq_false_2 in Hb by congruence.
  now apply eqb_prop.
Qed.

(** No parse of a schema that holds an entry with an unhandled type code
    returns a result. *)
Lemma parse_loop_unhandled_never_ok (values_map : list (option string * Z))
    (entry : option string * Z) :
  entry ∈ values_map ->
  handled entry.2 = false ->
  forall (result : Dict) (d : BinaryPayloadDecoder),
    is_Ok (snd (parse_loop values_map result d)) = false.
Proof.
  destruct entry as [valname valtype]. cbn [snd]. intros Hin Hh.
  induction values_map as [|entry rest IH]; intros result d.
  - now apply elem_of_nil in Hin.
  - apply elem_of_cons in Hin as [<- | Hin].
    + erewrite parse_loop_cons_raise by (now apply parse_entry_unhandled).
      reflexivity.
    + destruct (parse_entry entry result d) as [d1 [result1|e]] eqn:Hstep.
      * erewrite parse_loop_cons_ok by exact Hstep. now apply IH.
      * erewrite parse_loop_cons_raise by exact Hstep. reflexivity.
Qed.

(** A parse that gets as far as an entry with an unhandled type code ends
    there with [ValueError]. *)
Lemma parse_loop_reaches_unhandled (before after : list (option string * Z))
    (valname : option string) (valtype : Z)
    (result result' : Dict) (d d' : BinaryPayloadDecoder) :
  handled valtype = false ->
  parse_loop before result d = (d', Ok result') ->
  parse_loop (before ++ (valname, valtype) :: after) result d
  = (d', Raise (ValueError "Unknown register type!")).
Proof.
  intros Hh Hbefore. rewrite parse_loop_app. erewrite bind_ok by exact Hbefore.
  apply parse_loop_cons_raise. now apply parse_entry_unhandled.
Qed.

(** C5: an entry whose type code, the composite bit stripped, is neither
    [ISG_TYPE_2] nor [ISG_TYPE_6] makes the parser raise
    [ValueError("Unknown register type!")]: the iteration raises before it
    decodes anything, whatever the decoder and the result so far; a parse
    that reaches the entry ends with that error; and no parse of a schema
    that holds such an entry returns a result. *)
Theorem parse_unknown_register_type (valname : option string) (valtype : Z) :
  base_type valtype <> ISG_TYPE_2 ->
  base_type valtype <> ISG_TYPE_6 ->
  (forall (result : Dict) (d : BinaryPayloadDecoder),
     parse_entry (valname, valtype) result d
     = (d, Raise (ValueError "Unknown register type!"))) /\
  (forall before after (result result' : Dict) (d d' : BinaryPayloadDecoder),
     parse_loop before result d = (d', Ok result') ->
     parse_loop (before ++ (valname, valtype) :: after) result d
     = (d', Raise (ValueError "Unknown register type!"))) /\
  (forall values_map (d : BinaryPayloadDecoder),
     (valname, valtype) ∈ values_map ->
     is_Ok (snd (parse_modbus_values_by_map values_map d)) = false).
Proof.
  intros H2 H6.
  assert (handled valtype = false) as Hh
    by (unfold handled; apply orb_false_iff; split; now apply Z.eqb_neq).
  split; [|split].
  - intros result d. now apply parse_entry_unhandled.
  - intros before after result result' d d'. now apply parse_loop_reaches_unhandled.
  - intros values_map d Hin.
    now apply (parse_loop_unhandled_never_ok values_map (valname, valtype)).
Qed.

(** A schema of plain entries with handled type codes parses over any
    decoder that has the words. *)
Lemma parse_loop_plain_handled (values_map : list (option string * Z)) :
  forall (result : Dict) (d : BinaryPayloadDecoder),
    forallb plain_handled values_map = true ->
    (_pointer d + 2 * length values_map <= length (_payload d))%nat ->
    exists result' : Dict,
      parse_loop values_map result d
      = (advance (2 * length values_map) d, Ok result').
Proof.
  induction values_map as [|[valname valtype] rest IH]; intros result d Hp Hlen.
  - exists result. cbn. unfold advance. destruct d as [payload pointer]. cbn.
    now rewrite Nat.add_0_r.
  - cbn [forallb] in Hp. apply andb_true_iff in Hp as [Hp1 Hp].
    unfold plain_handled in Hp1. cbn [snd] in Hp1.
    apply andb_true_iff in Hp1 as [Hh Hc]. apply negb_true_iff in Hc.
    cbn [length] in Hlen.
    destruct (parse_entry_available valname valtype result d Hh ltac:(lia))
      as [v Hv].
    rewrite Hc in Hv.
    assert (exists result1, store result valname false v = Ok result1) as [result1 Hs]
      by (destruct valname; eexists; reflexivity).
    rewrite Hs in Hv.
    destruct (IH result1 (advance 2 d) Hp) as [result' Hloop].
    { cbn [advance _pointer _payload]. lia. }
    exists result'. erewrite parse_loop_cons_ok by exact Hv. rewrite Hloop.
    f_equal. unfold advance. cbn [_payload _pointer length]. f_equal. lia.
Qed.

End Parser.

(** ** The alternate family *)

Section Alternate.
Context `{Const}.

Lemma words_left_bytes (d : BinaryPayloadDecoder) (k : nat) :
  (0 < k <= words_left d)%nat -> (_pointer d + 2 * k <= length (_payload d))%nat.
Proof.
  unfold words_left. intros Hk.
  pose proof (Nat.div_mod_eq (length (_payload d) - _pointer d) 2). lia.
Qed.

Lemma length_payload_of (registers : list Z) :
  length (payload_of registers) = (2 * length registers)%nat.
Proof.
  induction registers as [|x rest IH]; [reflexivity|].
  change (payload_of (x :: rest)) with (x / 256 :: x mod 256 :: payload_of rest).
  cbn [length]. rewrite IH. lia.
Qed.

Lemma parse_system_values_map_LW (d : BinaryPayloadDecoder) :
  (28 <= words_left d)%nat ->
  parse_modbus_values_by_map system_values_map_LW d
  = (advance 56 d, Raise (ValueError "Unknown register type!")).
Proof.
  intros Hwords. assert (0 < 28 <= words_left d)%nat as Hbytes by lia.
  apply words_left_bytes in Hbytes. clear Hwords. rename Hbytes into Hwords.
  unfold parse_modbus_values_by_map.
  destruct (parse_loop_plain_handled (firstn 28 system_values_map_LW) ∅ d)
    as [result' Hloop]; [reflexivity | exact Hwords |].
  exact (parse_loop_reaches_unhandled
           (firstn 28 system_values_map_LW) (skipn 29 system_values_map_LW)
           None ISG_TYPE_7 ∅ result' d (advance 56 d) eq_refl Hloop).
Qed.

Lemma parse_system_values_map_LW_never_ok (d : BinaryPayloadDecoder) :
  is_Ok (snd (parse_modbus_values_by_map system_values_map_LW d)) = false.
Proof.
  apply (parse_loop_unhandled_never_ok system_values_map_LW (None, ISG_TYPE_7));
    [|reflexivity].
  unfold system_values_map_LW. rewrite !elem_of_cons. tauto.
Qed.

Lemma read_modbus_system_values_LW_error
    (self : StiebelEltronModbusDataCoordinator) (trace : list request) :
  _client self 0 34 1 = ModbusError ->
  read_modbus_system_values_LW self trace
  = (trace ++ [request_of 1 0 34], Raise (UnboundLocalError "decoder")).
Proof.
  intros Hread. unfold read_modbus_system_values_LW.
  rewrite read_step, Hread. reflexivity.
Qed.

Lemma read_modbus_system_values_LW_never_ok
    (self : StiebelEltronModbusDataCoordinator) (trace : list request) :
  is_Ok (snd (read_modbus_system_values_LW self trace)) = false.
Proof.
  unfold read_modbus_system_values_LW. rewrite read_step.
  destruct (_client self 0 34 1) as [|registers]; [reflexivity|].
  destruct (fromRegisters registers) as [decoder|e].
  - erewrite bind_ok by reflexivity. erewrite bind_ok by reflexivity.
    pose proof (parse_system_values_map_LW_never_ok decoder) as Hparse.
    destruct (parse_modbus_values_by_map system_values_map_LW decoder)
      as [d' [result|e]] eqn:Hp; [discriminate Hparse|].
    erewrite bind_raise; [reflexivity|]. unfold run, lift. now rewrite Hp.
  - erewrite bind_raise by reflexivity. reflexivity.
Qed.

Lemma read_modbus_system_values_LW_registers
    (self : StiebelEltronModbusDataCoordinator) (trace : list request)
    (registers : list Z) :
  _client self 0 34 1 = ReadInputRegistersResponse registers ->
  length registers = 34%nat ->
  forallb word16 registers = true ->
  read_modbus_system_values_LW self trace
  = (trace ++ [request_of 1 0 34], Raise (ValueError "Unknown register type!")).
Proof.
  intros Hread Hlen Hwords. unfold read_modbus_system_values_LW.
  rewrite read_step, Hread, (fromRegisters_words _ Hwords).
  erewrite bind_ok by reflexivity. erewrite bind_ok by reflexivity.
  erewrite bind_raise; [reflexivity|]. unfold run, lift.
  rewrite parse_system_values_map_LW; [reflexivity|].
  unfold words_left, decoder_at. cbn [_payload _pointer].
  rewrite length_payload_of, Hlen. cbn. lia.
Qed.

Lemma words_left_available (d : BinaryPayloadDecoder) :
  (_pointer d + 2 <= length (_payload d))%nat <-> (1 <= words_left d)%nat.
Proof.
  unfold words_left.
  pose proof (Nat.div_mod_eq (length (_payload d) - _pointer d) 2).
  pose proof (Nat.mod_upper_bound (length (_payload d) - _pointer d) 2).
  lia.
Qed.

Lemma words_left_advance (d : BinaryPayloadDecoder) :
  (_pointer d + 2 <= length (_payload d))%nat ->
  words_left (advance 2 d) = (words_left d - 1)%nat.
Proof.
  unfold words_left, advance. cbn [_payload _pointer]. intros Hle.
  pose proof (Nat.div_mod_eq (length (_payload d) - _pointer d) 2).
  pose proof (Nat.mod_upper_bound (length (_payload d) - _pointer d) 2).
  pose proof (Nat.div_mod_eq (length (_payload d) - (_pointer d + 2)) 2).
  pose proof (Nat.mod_upper_bound (length (_payload d) - (_pointer d + 2)) 2).
  lia.
Qed.

(** A schema of plain entries with handled type codes over a decoder with
    fewer words than entries: the entries that have a word are parsed, the
    next one raises [struct.error]. *)
Lemma parse_loop_plain_short (values_map : list (option string * Z)) :
  forall (result : Dict) (d : BinaryPayloadDecoder),
    forallb plain_handled values_map = true ->
    (words_left d < length values_map)%nat ->
    parse_loop values_map result d
    = (advance (2 * S (words_left d)) d, Raise struct_error).
Proof.
  induction values_map as [|[valname valtype] rest IH]; intros result d Hp Hshort.
  - cbn [length] in Hshort. lia.
  - cbn [forallb] in Hp. apply andb_true_iff in Hp as [Hp1 Hp].
    unfold plain_handled in Hp1. cbn [snd] in Hp1.
    apply andb_true_iff in Hp1 as [Hh Hc]. apply negb_true_iff in Hc.
    cbn [length] in Hshort.
    destruct (le_lt_dec (_pointer d + 2) (length (_payload d))) as [Hle|Hlt].
    + destruct (parse_entry_available valname valtype result d Hh Hle) as [v Hv].
      rewrite Hc in Hv.
      assert (exists result1, store result valname false v = Ok result1)
        as [result1 Hs] by (destruct valname; eexists; reflexivity).
      rewrite Hs in Hv. erewrite parse_loop_cons_ok by exact Hv.
      pose proof (proj1 (words_left_available d) Hle) as Hone.
      rewrite IH by (try assumption; rewrite words_left_advance by assumption; lia).
      rewrite words_left_advance by assumption.
      f_equal. unfold advance. cbn [_payload _pointer]. f_equal. lia.
    + assert (words_left d = 0)%nat as ->.
      { pose proof (words_left_available d) as Hav.
        destruct (words_left d); [reflexivity | lia]. }
      apply parse_loop_cons_raise. now apply parse_entry_exhausted.
Qed.

Lemma parse_system_values_map_LW_short (d : BinaryPayloadDecoder) :
  (words_left d < 28)%nat ->
  parse_modbus_values_by_map system_values_map_LW d
  = (advance (2 * S (words_left d)) d, Raise struct_error).
Proof.
  intros Hshort. unfold parse_modbus_values_by_map.
  replace (parse_loop system_values_map_LW ∅ d)
    with (parse_loop (firstn 28 system_values_map_LW
                      ++ skipn 28 system_values_map_LW) ∅ d) by reflexivity.
  rewrite parse_loop_app.
  erewrite bind_raise; [reflexivity|].
  apply parse_loop_plain_short; [reflexivity | exact Hshort].
Qed.

Lemma words_left_decoder_at (registers : list Z) :
  words_left (decoder_at registers 0) = length registers.
Proof.
  unfold words_left, decoder_at. cbn [_payload _pointer].
  rewrite length_payload_of, Nat.mul_0_r, Nat.sub_0_r, Nat.mul_comm.
  now apply Nat.div_mul.
Qed.

Lemma read_modbus_system_values_LW_short
    (self : StiebelEltronModbusDataCoordinator) (trace : list request)
    (registers : list Z) :
  _client self 0 34 1 = ReadInputRegistersResponse registers ->
  forallb word16 registers = true ->
  (length registers < 28)%nat ->
  read_modbus_system_values_LW self trace
  = (trace ++ [request_of 1 0 34], Raise struct_error).
Proof.
  intros Hread Hwords Hlen. unfold read_modbus_system_values_LW.
  rewrite read_step, Hread, (fromRegisters_words _ Hwords).
  erewrite bind_ok by reflexivity. erewrite bind_ok by reflexivity.
  erewrite bind_raise; [reflexivity|]. unfold run, lift.
  rewrite parse_system_values_map_LW_short
    by (now rewrite words_left_decoder_at).
  reflexivity.
Qed.

(** C10, as the code has it: over every decoder that still holds at least
    28 words, parsing [system_values_map_LW] raises
    [ValueError("Unknown register type!")] at the first of its two
    [ISG_TYPE_7] entries, after 28 words; over every decoder that holds
    fewer words the parse raises [struct.error] at the first entry without
    a word; over no decoder at all does the parse return a result; hence
    [read_modbus_system_values_LW] never returns a result mapping: it
    raises that [ValueError] whenever its read of 34 registers succeeds, and
    [struct.error] on a response of fewer than 28 registers. *)
Theorem system_values_map_LW_unknown_type :
  (forall d : BinaryPayloadDecoder,
     (28 <= words_left d)%nat ->
     parse_modbus_values_by_map system_values_map_LW d
     = (advance 56 d, Raise (ValueError "Unknown register type!"))) /\
  (forall d : BinaryPayloadDecoder,
     is_Ok (snd (parse_modbus_values_by_map system_values_map_LW d)) = false) /\
  (forall (self : StiebelEltronModbusDataCoordinator) (trace : list request),
     is_Ok (snd (read_modbus_system_values_LW self trace)) = false) /\
  (forall (self : StiebelEltronModbusDataCoordinator) (trace : list request)
          (registers : list Z),
     _client self 0 34 1 = ReadInputRegistersResponse registers ->
     length registers = 34%nat ->
     forallb word16 registers = true ->
     read_modbus_system_values_LW self trace
     = (trace ++ [request_of 1 0 34], Raise (ValueError "Unknown register type!"))) /\
  (forall d : BinaryPayloadDecoder,
     (words_left d < 28)%nat ->
     parse_modbus_values_by_map system_values_map_LW d
     = (advance (2 * S (words_left d)) d, Raise struct_error)) /\
  (forall (self : StiebelEltronModbusDataCoordinator) (trace : list request)
          (registers : list Z),
     _client self 0 34 1 = ReadInputRegistersResponse registers ->
     forallb word16 registers = true ->
     (length registers < 28)%nat ->
     read_modbus_system_values_LW self trace
     = (trace ++ [request_of 1 0 34], Raise struct_error)).
Proof.
  split; [exact parse_system_values_map_LW|].
  split; [exact parse_system_values_map_LW_never_ok|].
  split; [exact read_modbus_system_values_LW_never_ok|].
  split; [exact read_modbus_system_values_LW_registers|].
  split; [exact parse_system_values_map_LW_short|].
  exact read_modbus_system_values_LW_short.
Qed.

End Alternate.

(** ** The poll *)

Section Poll.
Context `{Const}.

Lemma read_modbus_controller_id_error
    (self : StiebelEltronModbusDataCoordinator) (trace : list request) :
  _client self 5001 1 1 = ModbusError ->
  read_modbus_controller_id self trace = (trace ++ [request_of 1 5001 1], Ok 0).
Proof.
  intros Hread. unfold read_modbus_controller_id. cbv zeta.
  rewrite read_step, Hread. reflexivity.
Qed.

Lemma read_modbus_controller_id_registers
    (self : StiebelEltronModbusDataCoordinator) (trace : list request) (id : Z) :
  _client self 5001 1 1 = ReadInputRegistersResponse [id] ->
  word16 id = true ->
  read_modbus_controller_id self trace = (trace ++ [request_of 1 5001 1], Ok id).
Proof.
  intros Hread Hid. unfold read_modbus_controller_id. cbv zeta.
  rewrite read_step, Hread.
  rewrite fromRegisters_words by (cbn; now rewrite Hid).
  rewrite bind_lift_ok.
  erewrite bind_ok; [reflexivity|]. unfold run, lift.
  now rewrite (decode_16bit_uint_at [id] 0 id).
Qed.

(** The identity 103 leads to the call of [read_modbus_system_values_lw],
    a name the class does not define. *)
Lemma read_modbus_data_alternate
    (self : StiebelEltronModbusDataCoordinator) (trace trace' : list request) :
  read_modbus_controller_id self trace = (trace', Ok 103) ->
  read_modbus_data self trace
  = (trace', Raise (AttributeError "read_modbus_system_values_lw")).
Proof.
  intros Hid. unfold read_modbus_data. erewrite bind_ok by exact Hid. reflexivity.
Qed.

(** Every other identity leads to the three reads of the default family. *)
Lemma read_modbus_data_else
    (self : StiebelEltronModbusDataCoordinator) (trace trace' : list request) (id : Z) :
  read_modbus_controller_id self trace = (trace', Ok id) ->
  id <> 103 ->
  read_modbus_data self trace = default_family self id trace'.
Proof.
  intros Hid Hne. unfold read_modbus_data. erewrite bind_ok by exact Hid.
  destruct (Z.eqb_spec 103 id) as [Heq|_]; [congruence | reflexivity].
Qed.

Lemma read_modbus_energy_well_formed
    (self : StiebelEltronModbusDataCoordinator) (trace : list request) :
  well_formed 22 (_client self 3500 22 1) = true ->
  read_modbus_energy self trace
  = (trace ++ [request_of 1 3500 22], Ok (energy_block (_client self 3500 22 1))).
Proof.
  destruct (_client self 3500 22 1) as [|registers] eqn:Hread; cbn [well_formed].
  - intros _. now apply read_modbus_energy_error.
  - rewrite andb_true_iff, Nat.eqb_eq. intros [Hlen Hwords].
    now apply read_modbus_energy_registers.
Qed.

Lemma read_modbus_system_state_well_formed
    (self : StiebelEltronModbusDataCoordinator) (trace : list request) :
  well_formed 1 (_client self 2500 1 1) = true ->
  read_modbus_system_state self trace
  = (trace ++ [request_of 1 2500 1], Ok (system_state_block (_client self 2500 1 1))).
Proof.
  destruct (_client self 2500 1 1) as [|registers] eqn:Hread; cbn [well_formed].
  - intros _. now apply read_modbus_system_state_error.
  - rewrite andb_true_iff, Nat.eqb_eq. intros [Hlen Hwords].
    destruct registers as [|s [|? ?]]; try discriminate Hlen.
    cbn [forallb] in Hwords. rewrite andb_true_r in Hwords.
    now apply read_modbus_system_state_registers.
Qed.

Lemma read_modbus_system_values_well_formed
    (self : StiebelEltronModbusDataCoordinator) (trace : list request) :
  well_formed 40 (_client self 500 40 1) = true ->
  read_modbus_system_values self trace
  = (trace ++ [request_of 1 500 40], Ok (system_values_block (_client self 500 40 1))).
Proof.
  destruct (_client self 500 40 1) as [|registers] eqn:Hread; cbn [well_formed].
  - intros _. now apply read_modbus_system_values_error.
  - rewrite andb_true_iff, Nat.eqb_eq. intros [Hlen Hwords].
    now apply read_modbus_system_values_registers.
Qed.

(** The default family on a device that answers its three reads with an
    error or with the registers asked for: the poll returns; a block whose
    read failed contributes the empty dictionary. *)
Lemma default_family_spec
    (self : StiebelEltronModbusDataCoordinator) (id : Z) (trace : list request) :
  well_formed_default self = true ->
  default_family self id trace
  = (trace ++ [request_of 1 3500 22; request_of 1 2500 1; request_of 1 500 40],
     Ok (<["controller_id" := VInt id]>
           (dict_update
              (dict_update (dict_update ∅ (energy_block (_client self 3500 22 1)))
                           (system_state_block (_client self 2500 1 1)))
              (system_values_block (_client self 500 40 1))))).
Proof.
  unfold well_formed_default. rewrite !andb_true_iff. intros [[He Hs] Hv].
  unfold default_family.
  erewrite bind_ok by (now apply read_modbus_energy_well_formed).
  erewrite bind_ok by (now apply read_modbus_system_state_well_formed).
  erewrite bind_ok by (now apply read_modbus_system_values_well_formed).
  unfold ret. now rewrite <- !app_assoc.
Qed.

(** The default half of the dispatch: an identity other than 103 runs the
    energy, system-state and system-values reads, in this order, and returns
    their merged entries and [controller_id]. *)
Lemma read_modbus_data_default
    (self : StiebelEltronModbusDataCoordinator) (trace : list request) (id : Z) :
  _client self 5001 1 1 = ReadInputRegistersResponse [id] ->
  word16 id = true ->
  id <> 103 ->
  well_formed_default self = true ->
  read_modbus_data self trace
  = (trace ++ [request_of 1 5001 1; request_of 1 3500 22;
               request_of 1 2500 1; request_of 1 500 40],
     Ok (<["controller_id" := VInt id]>
           (dict_update
              (dict_update (dict_update ∅ (energy_block (_client self 3500 22 1)))
                           (system_state_block (_client self 2500 1 1)))
              (system_values_block (_client self 500 40 1))))).
Proof.
  intros Hread Hid Hne Hwf.
  rewrite (read_modbus_data_else self trace _ id
             (read_modbus_controller_id_registers self trace id Hread Hid) Hne).
  rewrite (default_family_spec self id _ Hwf). now rewrite <- app_assoc.
Qed.

Lemma _async_update_data_ok
    (self : StiebelEltronModbusDataCoordinator) (trace trace' : list request)
    (result : Dict) :
  read_modbus_data self trace = (trace', Ok result) ->
  _async_update_data self trace = (trace', Ok result).
Proof. unfold _async_update_data. now intros ->. Qed.

Lemma _async_update_data_raise
    (self : StiebelEltronModbusDataCoordinator) (trace trace' : list request)
    (e : exn) :
  read_modbus_data self trace = (trace', Raise e) ->
  _async_update_data self trace = (trace', Raise (UpdateFailed e)).
Proof. unfold _async_update_data. now intros ->. Qed.

(** C1, at the identity 103: the poll reads the identity and then raises
    [AttributeError], because [read_modbus_data] calls
    [read_modbus_system_values_lw] while the method is named
    [read_modbus_system_values_LW]; the alternate block is never read, no
    mapping is returned and the update fails. The method itself, had it been
    reached, returns no mapping either. *)
Theorem read_modbus_data_identity_103
    (self : StiebelEltronModbusDataCoordinator) (trace : list request) :
  _client self 5001 1 1 = ReadInputRegistersResponse [103] ->
  read_modbus_data self trace
  = (trace ++ [request_of 1 5001 1],
     Raise (AttributeError "read_modbus_system_values_lw")) /\
  _async_update_data self trace
  = (trace ++ [request_of 1 5001 1],
     Raise (UpdateFailed (AttributeError "read_modbus_system_values_lw"))) /\
  (forall trace', is_Ok (snd (read_modbus_system_values_LW self trace')) = false).
Proof.
  intros Hread.
  assert (read_modbus_data self trace
          = (trace ++ [request_of 1 5001 1],
             Raise (AttributeError "read_modbus_system_values_lw"))) as Hpoll
    by (apply read_modbus_data_alternate;
        now apply read_modbus_controller_id_registers).
  split; [exact Hpoll|].
  split; [now apply _async_update_data_raise|].
  intros trace'. apply read_modbus_system_values_LW_never_ok.
Qed.

(** C2, as the code has it: when the identity read returns a transport
    error, [read_modbus_controller_id] returns 0 and the poll goes on with
    the default family; on a device that answers the three block reads with
    an error or with the registers asked for, the poll returns their merged
    entries with [controller_id] 0, and the update succeeds. *)
Theorem read_modbus_data_identity_error
    (self : StiebelEltronModbusDataCoordinator) (trace : list request) :
  _client self 5001 1 1 = ModbusError ->
  read_modbus_controller_id self trace = (trace ++ [request_of 1 5001 1], Ok 0) /\
  read_modbus_data self trace = default_family self 0 (trace ++ [request_of 1 5001 1]) /\
  (well_formed_default self = true ->
   exists result : Dict,
     read_modbus_data self trace
     = (trace ++ [request_of 1 5001 1; request_of 1 3500 22;
                  request_of 1 2500 1; request_of 1 500 40], Ok result) /\
     _async_update_data self trace
     = (trace ++ [request_of 1 5001 1; request_of 1 3500 22;
                  request_of 1 2500 1; request_of 1 500 40], Ok result) /\
     result !! "controller_id" = Some (VInt 0) /\
     result
     = <["controller_id" := VInt 0]>
         (dict_update
            (dict_update (dict_update ∅ (energy_block (_client self 3500 22 1)))
                         (system_state_block (_client self 2500 1 1)))
            (system_values_block (_client self 500 40 1)))).
Proof.
  intros Hread.
  pose proof (read_modbus_controller_id_error self trace Hread) as Hid.
  assert (read_modbus_data self trace
          = default_family self 0 (trace ++ [request_of 1 5001 1])) as Hpoll
    by (now apply read_modbus_data_else).
  split; [exact Hid|]. split; [exact Hpoll|].
  intros Hwf. eexists.
  assert (read_modbus_data self trace
          = (trace ++ [request_of 1 5001 1; request_of 1 3500 22;
                       request_of 1 2500 1; request_of 1 500 40],
             Ok (<["controller_id" := VInt 0]>
                   (dict_update
                      (dict_update
                         (dict_update ∅ (energy_block (_client self 3500 22 1)))
                         (system_state_block (_client self 2500 1 1)))
                      (system_values_block (_client self 500 40 1))))))
    as Hdata
    by (rewrite Hpoll, (default_family_spec self 0 _ Hwf); now rewrite <- app_assoc).
  split; [exact Hdata|].
  split; [now apply _async_update_data_ok|].
  split; [apply lookup_insert_eq | reflexivity].
Qed.

(** C3, at the alternate-family block: when the read of its 34 registers
    returns a transport error, [read_modbus_system_values_LW] uses the
    local [decoder] that was never assigned and raises [UnboundLocalError];
    the block contributes nothing because the poll does not complete: for
    the identity 103 the poll returns no mapping and the update fails. *)
Theorem read_modbus_system_values_LW_read_error
    (self : StiebelEltronModbusDataCoordinator) (trace : list request) :
  _client self 0 34 1 = ModbusError ->
  read_modbus_system_values_LW self trace
  = (trace ++ [request_of 1 0 34], Raise (UnboundLocalError "decoder")) /\
  (_client self 5001 1 1 = ReadInputRegistersResponse [103] ->
   is_Ok (snd (read_modbus_data self trace)) = false /\
   is_Ok (snd (_async_update_data self trace)) = false).
Proof.
  intros Hread. split; [now apply read_modbus_system_values_LW_error|].
  intros Hid.
  assert (read_modbus_data self trace
          = (trace ++ [request_of 1 5001 1],
             Raise (AttributeError "read_modbus_system_values_lw"))) as Hpoll
    by (apply read_modbus_data_alternate;
        now apply read_modbus_controller_id_registers).
  split; [now rewrite Hpoll|].
  now rewrite (_async_update_data_raise _ _ _ _ Hpoll).
Qed.

End Poll.

(** * The statements on sample devices *)

Lemma read_modbus_data_identity_103_witness :
  @read_modbus_data const_sample
     (sample_device (ReadInputRegistersResponse [103]) []) []
  = ([request_of 1 5001 1], Raise (AttributeError "read_modbus_system_values_lw")).
Proof.
  exact (proj1 (@read_modbus_data_identity_103 const_sample
                  (sample_device (ReadInputRegistersResponse [103]) []) []
                  eq_refl)).
Defined.

Lemma read_modbus_data_identity_error_witness :
  exists result : Dict,
    @_async_update_data const_sample (sample_device ModbusError []) []
    = ([request_of 1 5001 1; request_of 1 3500 22;
        request_of 1 2500 1; request_of 1 500 40], Ok result) /\
    result !! "controller_id" = Some (VInt 0).
Proof.
  destruct (proj2 (proj2 (@read_modbus_data_identity_error const_sample
                            (sample_device ModbusError []) [] eq_refl)) eq_refl)
    as (result & _ & Hupdate & Hid & _).
  exists result. split; [exact Hupdate | exact Hid].
Defined.

(** The identity read fails, and yet the poll returns a mapping with the
    entries of the three default blocks and [controller_id] 0. *)
Lemma identity_error_poll_returns :
  let self := sample_device ModbusError [] in
  let poll := @read_modbus_data const_sample self [] in
  _client self 5001 1 1 = ModbusError /\
  fst poll = [request_of 1 5001 1; request_of 1 3500 22;
              request_of 1 2500 1; request_of 1 500 40] /\
  is_Ok (snd poll) = true /\
  entry_of (snd poll) "controller_id" = Some (VInt 0) /\
  entry_of (snd poll) "produced_heating_today" = Some (VInt 3500) /\
  entry_of (snd poll) "is_summer_mode" = Some (VBool true) /\
  entry_of (snd poll) "actual_temperature" = Some (VFloat 50.0%float) /\
  entries_of (snd poll) = 30%nat.
Proof. cbv zeta. repeat split; vm_compute; reflexivity. Qed.

Lemma read_modbus_system_values_LW_read_error_witness :
  @read_modbus_system_values_LW const_sample
     (sample_device (ReadInputRegistersResponse [103]) [0]) []
  = ([request_of 1 0 34], Raise (UnboundLocalError "decoder")) /\
  is_Ok (snd (@_async_update_data const_sample
                (sample_device (ReadInputRegistersResponse [103]) [0]) [])) = false.
Proof.
  pose proof (@read_modbus_system_values_LW_read_error const_sample
                (sample_device (ReadInputRegistersResponse [103]) [0]) [] eq_refl)
    as [Hblock Hpoll].
  split; [exact Hblock | exact (proj2 (Hpoll eq_refl))].
Defined.

(** The sibling blocks on the same kind of failure: the energy read fails,
    the poll returns, and the result holds the system-state and main-values
    entries but no energy entry. *)
Example energy_error_poll_returns :
  let self := sample_device (ReadInputRegistersResponse [2]) [3500] in
  let poll := @read_modbus_data const_sample self [] in
  fst poll = [request_of 1 5001 1; request_of 1 3500 22;
              request_of 1 2500 1; request_of 1 500 40] /\
  is_Ok (snd poll) = true /\
  entry_of (snd poll) "controller_id" = Some (VInt 2) /\
  entry_of (snd poll) "produced_heating_today" = None /\
  entry_of (snd poll) "consumed_water_heating_total" = None /\
  entry_of (snd poll) "is_cooling" = Some (VBool true) /\
  entry_of (snd poll) "source_temperature" = Some (VFloat 53.5%float) /\
  entries_of (snd poll) = 22%nat.
Proof. cbv zeta. repeat split; vm_compute; reflexivity. Qed.

(** Both type codes are handled and there is a word for each entry, but
    the name already holds an integer when the composite entry comes: the
    parser raises instead of accumulating a list. *)
Lemma parse_composite_after_plain_raises :
  forallb (fun entry => handled entry.2) [(Some "a", 6); (Some "a", 134)] = true /\
  parse_modbus_values_by_map [(Some "a", 6); (Some "a", 134)] (decoder_at [1; 2] 0)
  = (decoder_at [1; 2] 2, Raise (AttributeError "append")).
Proof. split; reflexivity. Qed.

Lemma parse_unknown_register_type_witness :
  parse_entry (Some "high_pressure", ISG_TYPE_7) ∅ (decoder_at [1; 2] 0)
  = (decoder_at [1; 2] 0, Raise (ValueError "Unknown register type!")).
Proof.
  apply (proj1 (parse_unknown_register_type (Some "high_pressure") ISG_TYPE_7
                  ltac:(vm_compute; discriminate) ltac:(vm_compute; discriminate))).
Defined.

Lemma read_modbus_energy_spec_witness :
  exists result : Dict,
    @read_modbus_energy const_sample
       (sample_device (ReadInputRegistersResponse [2]) []) []
    = ([request_of 1 3500 22], Ok result) /\
    result !! "produced_heating_total" = Some (VInt (3502 * 1000 + 3501)) /\
    result !! "consumed_heating_today" = Some (VInt 3510).
Proof.
  destruct (@read_modbus_energy_spec const_sample
              (sample_device (ReadInputRegistersResponse [2]) []) []
              (sample_registers 3500 22) eq_refl eq_refl eq_refl)
    as (result & Hrun & _ & Hkeys).
  exists result. split; [exact Hrun|].
  assert (NoDup (@energy_expected const_sample (sample_registers 3500 22)).*1) as Hnd
    by (apply (bool_decide_unpack _); vm_compute; exact I).
  split; [exact (proj1 (proj2 (Hkeys Hnd)))|].
  exact (proj1 (proj2 (proj2 (proj2 (proj2 (Hkeys Hnd)))))).
Defined.

Lemma read_modbus_system_state_spec_witness :
  (exists result : Dict,
     @read_modbus_system_state const_sample (state_device 304) []
     = ([request_of 1 2500 1], Ok result) /\
     result !! "is_heating" = Some (VBool true) /\
     result !! "is_heating_water" = Some (VBool true) /\
     result !! "is_summer_mode" = Some (VBool false) /\
     result !! "is_cooling" = Some (VBool true) /\
     result !! "consumed_power" = Some (VFloat 3000.0%float)) /\
  @read_modbus_system_state const_sample
     (sample_device (ReadInputRegistersResponse [2]) [2500]) []
  = ([request_of 1 2500 1], Ok ∅).
Proof.
  split.
  - destruct (proj1 (@read_modbus_system_state_spec const_sample (state_device 304) [])
                304 eq_refl eq_refl)
      as (result & Hrun & H4 & H5 & H7 & H8 & Hpower & _).
    { apply (bool_decide_unpack _). vm_compute. exact I. }
    exists result. repeat split; assumption.
  - exact (proj2 (@read_modbus_system_state_spec const_sample
                    (sample_device (ReadInputRegistersResponse [2]) [2500]) [])
                 eq_refl).
Defined.

Lemma read_modbus_system_values_spec_witness :
  exists result : Dict,
    @read_modbus_system_values const_sample
       (sample_device (ReadInputRegistersResponse [2]) []) []
    = ([request_of 1 500 40], Ok result) /\
    result !! "target_temperature_hk1" = Some (get_isg_scaled_value 509) /\
    result !! "actual_temperature_buffer" = Some (get_isg_scaled_value 517) /\
    result !! "actual_temperature_water" = Some (get_isg_scaled_value 521) /\
    result !! "source_temperature" = Some (get_isg_scaled_value 535).
Proof.
  destruct (@read_modbus_system_values_spec const_sample
              (sample_device (ReadInputRegistersResponse [2]) []) []
              (sample_registers 500 40) eq_refl eq_refl eq_refl)
    as (result & Hrun & _ & Hkeys & _).
  exists result. split; [exact Hrun|].
  assert (NoDup (@system_values_expected const_sample (sample_registers 500 40)).*1)
    as Hnd by (apply (bool_decide_unpack _); vm_compute; exact I).
  destruct (Hkeys Hnd) as (_ & _ & Hhk1 & _ & _ & Hbuf & _ & Hwater & _ & Hsrc).
  repeat split; assumption.
Defined.

Lemma system_values_map_LW_unknown_type_witness :
  parse_modbus_values_by_map (@system_values_map_LW const_sample)
    (decoder_at (sample_registers 0 34) 0)
  = (decoder_at (sample_registers 0 34) 28,
     Raise (ValueError "Unknown register type!")) /\
  @read_modbus_system_values_LW const_sample
     (sample_device (ReadInputRegistersResponse [103]) []) []
  = ([request_of 1 0 34], Raise (ValueError "Unknown register type!")) /\
  parse_modbus_values_by_map (@system_values_map_LW const_sample)
    (decoder_at (sample_registers 0 27) 0)
  = (decoder_at (sample_registers 0 27) 28, Raise struct_error) /\
  @read_modbus_system_values_LW const_sample
     (constant_device (ReadInputRegistersResponse (sample_registers 0 10))) []
  = ([request_of 1 0 34], Raise struct_error).
Proof.
  split; [|split; [|split]].
  - apply (proj1 (@system_values_map_LW_unknown_type const_sample)
             (decoder_at (sample_registers 0 34) 0)).
    vm_compute. lia.
  - exact (proj1 (proj2 (proj2 (proj2
                    (@system_values_map_LW_unknown_type const_sample))))
             (sample_device (ReadInputRegistersResponse [103]) []) []
             (sample_registers 0 34) eq_refl eq_refl eq_refl).
  - apply (proj1 (proj2 (proj2 (proj2 (proj2
                    (@system_values_map_LW_unknown_type const_sample)))))
             (decoder_at (sample_registers 0 27) 0)).
    vm_compute. lia.
  - apply (proj2 (proj2 (proj2 (proj2 (proj2
                    (@system_values_map_LW_unknown_type const_sample)))))
             (constant_device (ReadInputRegistersResponse (sample_registers 0 10)))
             [] (sample_registers 0 10) eq_refl eq_refl).
    vm_compute. lia.
Defined.

(** Over a decoder without words the parse of [system_values_map_LW]
    stops at its first entry with [struct.error], not with the
    unknown-type [ValueError]. *)
Lemma system_values_map_LW_short_decoder :
  parse_modbus_values_by_map (@system_values_map_LW const_sample)
    {| _payload := []; _pointer := 0 |}
  = ({| _payload := []; _pointer := 2 |}, Raise struct_error).
Proof. reflexivity. Qed.

(** * Further properties of the decoders and of the poll *)

(** ** Responses of any length *)

Lemma pack_registers_not_words (registers : list Z) :
  forallb word16 registers = false ->
  pack_registers registers = Raise struct_error.
Proof.
  induction registers as [|x rest IH]; cbn [forallb pack_registers]; [discriminate|].
  unfold pack_H. fold (word16 x). destruct (word16 x); cbn [andb]; [|reflexivity].
  intros Hrest. now rewrite (IH Hrest).
Qed.

Lemma fromRegisters_not_words (registers : list Z) :
  forallb word16 registers = false ->
  fromRegisters registers = Raise struct_error.
Proof.
  intros Hw. unfold fromRegisters. now rewrite (pack_registers_not_words _ Hw).
Qed.

Lemma decode_16bit_uint_at_end (registers : list Z) (i : nat) :
  registers !! i = None ->
  decode_16bit_uint (decoder_at registers i)
  = (decoder_at registers (S i), Raise struct_error).
Proof.
  intros Hi. apply lookup_ge_None in Hi.
  rewrite decode_16bit_uint_exhausted
    by (unfold decoder_at; cbn [_payload _pointer]; rewrite length_payload_of; lia).
  f_equal. unfold advance, decoder_at. cbn [_payload _pointer]. f_equal. lia.
Qed.

Lemma decode_16bit_int_at_end (registers : list Z) (i : nat) :
  registers !! i = None ->
  decode_16bit_int (decoder_at registers i)
  = (decoder_at registers (S i), Raise struct_error).
Proof.
  intros Hi. apply lookup_ge_None in Hi.
  rewrite decode_16bit_int_exhausted
    by (unfold decoder_at; cbn [_payload _pointer]; rewrite length_payload_of; lia).
  f_equal. unfold advance, decoder_at. cbn [_payload _pointer]. f_equal. lia.
Qed.

(** Ends a straight-line sequence of decoder calls at the register that
    is missing. *)
Ltac decode_end :=
  first
    [ erewrite (bind_raise decode_16bit_uint)
        by (apply decode_16bit_uint_at_end; reflexivity)
    | erewrite (bind_raise decode_16bit_int)
        by (apply decode_16bit_int_at_end; reflexivity) ].

Section Outcomes.
Context `{Const}.

Lemma read_modbus_controller_id_outcome
    (self : StiebelEltronModbusDataCoordinator) (trace : list request) :
  read_modbus_controller_id self trace
  = (trace ++ [request_of 1 5001 1], id_outcome (_client self 5001 1 1)).
Proof.
  unfold read_modbus_controller_id. cbv zeta. rewrite read_step.
  destruct (_client self 5001 1 1) as [|registers]; [reflexivity|].
  unfold id_outcome. destruct (forallb word16 registers) eqn:Hw.
  - rewrite (fromRegisters_words _ Hw), bind_lift_ok. clear Hw.
    destruct registers as [|id rest].
    + erewrite bind_raise; [reflexivity|]. unfold run, lift.
      now rewrite decode_16bit_uint_at_end.
    + erewrite bind_ok; [reflexivity|]. unfold run, lift.
      now rewrite (decode_16bit_uint_at (id :: rest) 0 id).
  - now rewrite (fromRegisters_not_words _ Hw).
Qed.

Lemma read_modbus_energy_outcome
    (self : StiebelEltronModbusDataCoordinator) (trace : list request) :
  read_modbus_energy self trace
  = (trace ++ [request_of 1 3500 22],
     block_outcome 16 energy_expected (_client self 3500 22 1)).
Proof.
  unfold read_modbus_energy. cbv zeta. rewrite read_step.
  destruct (_client self 3500 22 1) as [|registers]; [reflexivity|].
  unfold block_outcome. destruct (forallb word16 registers) eqn:Hw; cbn [andb].
  - rewrite (fromRegisters_words _ Hw), bind_lift_ok. clear Hw.
    unfold run, lift. f_equal.
    do 16 (destruct registers as [|? registers];
           [repeat decode_step; decode_end; reflexivity|]).
    repeat decode_step. reflexivity.
  - now rewrite (fromRegisters_not_words _ Hw).
Qed.

Lemma read_modbus_system_state_outcome
    (self : StiebelEltronModbusDataCoordinator) (trace : list request) :
  read_modbus_system_state self trace
  = (trace ++ [request_of 1 2500 1],
     block_outcome 1 (fun registers => system_state_expected (reg registers 0))
       (_client self 2500 1 1)).
Proof.
  unfold read_modbus_system_state. cbv zeta. rewrite read_step.
  destruct (_client self 2500 1 1) as [|registers]; [reflexivity|].
  unfold block_outcome. destruct (forallb word16 registers) eqn:Hw; cbn [andb].
  - rewrite (fromRegisters_words _ Hw), bind_lift_ok. clear Hw.
    unfold run, lift. f_equal.
    destruct registers as [|s registers]; [decode_end; reflexivity|].
    decode_step. unfold ret. cbn [snd length Nat.leb reg nth].
    rewrite !land_bit by lia. rewrite (orb_comm (Z.testbit s 5)). reflexivity.
  - now rewrite (fromRegisters_not_words _ Hw).
Qed.

Lemma read_modbus_system_values_outcome
    (self : StiebelEltronModbusDataCoordinator) (trace : list request) :
  read_modbus_system_values self trace
  = (trace ++ [request_of 1 500 40],
     block_outcome 36 system_values_expected (_client self 500 40 1)).
Proof.
  unfold read_modbus_system_values. cbv zeta. rewrite read_step.
  destruct (_client self 500 40 1) as [|registers]; [reflexivity|].
  unfold block_outcome. destruct (forallb word16 registers) eqn:Hw; cbn [andb].
  - rewrite (fromRegisters_words _ Hw), bind_lift_ok. clear Hw.
    unfold run, lift. f_equal.
    do 36 (destruct registers as [|? registers];
           [repeat decode_step; decode_end; reflexivity|]).
    repeat decode_step. reflexivity.
  - now rewrite (fromRegisters_not_words _ Hw).
Qed.

End Outcomes.

(** ** The poll on every device *)

Section PollOutcome.
Context `{Const}.

(** The poll is determined, block by block, by the four responses. *)
Lemma read_modbus_data_outcome
    (self : StiebelEltronModbusDataCoordinator) (trace : list request) :
  read_modbus_data self trace = poll_outcome self trace.
Proof.
  unfold read_modbus_data, poll_outcome, default_requests.
  unfold bind at 1. rewrite read_modbus_controller_id_outcome.
  destruct (id_outcome (_client self 5001 1 1)) as [id|e]; [|reflexivity].
  destruct (103 =? id); [reflexivity|].
  change (call_method self "read_modbus_energy") with (read_modbus_energy self).
  change (call_method self "read_modbus_system_state")
    with (read_modbus_system_state self).
  change (call_method self "read_modbus_system_values")
    with (read_modbus_system_values self).
  unfold bind at 1. rewrite read_modbus_energy_outcome, <- app_assoc.
  destruct (block_outcome 16 _ _) as [energy|e]; [|reflexivity].
  unfold bind at 1. rewrite read_modbus_system_state_outcome, <- app_assoc.
  destruct (block_outcome 1 _ _) as [system_state|e]; [|reflexivity].
  unfold bind at 1. rewrite read_modbus_system_values_outcome, <- app_assoc.
  destruct (block_outcome 36 _ _) as [system_values|e]; reflexivity.
Qed.

Lemma id_outcome_range (r : response) (id : Z) :
  id_outcome r = Ok id -> 0 <= id <= 65535.
Proof.
  destruct r as [|registers]; cbn [id_outcome].
  - intros [= <-]. lia.
  - destruct (forallb word16 registers) eqn:Hw; [|discriminate].
    destruct registers as [|x rest]; [discriminate|]. intros [= <-].
    cbn [forallb] in Hw. apply andb_true_iff in Hw as [Hx _].
    now apply word16_range.
Qed.

Lemma block_outcome_well_formed (count needed : nat)
    (expected : list Z -> list (string * value)) (r : response) :
  well_formed count r = true ->
  (needed <= count)%nat ->
  exists result : Dict, block_outcome needed expected r = Ok result.
Proof.
  destruct r as [|registers]; cbn [well_formed block_outcome]; [now eexists|].
  rewrite andb_true_iff, Nat.eqb_eq. intros [Hlen ->] Hle. cbn [andb].
  rewrite (proj2 (Nat.leb_le needed (length registers))) by lia. now eexists.
Qed.

Lemma block_outcome_short (needed : nat)
    (expected : list Z -> list (string * value)) (registers : list Z) :
  (length registers < needed)%nat ->
  block_outcome needed expected (ReadInputRegistersResponse registers)
  = Raise struct_error.
Proof.
  intros Hlen. cbn [block_outcome].
  rewrite (proj2 (Nat.leb_gt needed (length registers))) by lia.
  now rewrite andb_false_r.
Qed.

(** X1: the identity read sends one request (unit 1, address 5001, one
    register) and returns the first register of a successful response, 0
    after a transport error, and raises [struct.error] on a response without
    registers; whatever it returns lies between 0 and 65535. *)
Theorem read_modbus_controller_id_spec
    (self : StiebelEltronModbusDataCoordinator) (trace : list request) :
  (forall id rest,
     _client self 5001 1 1 = ReadInputRegistersResponse (id :: rest) ->
     forallb word16 (id :: rest) = true ->
     read_modbus_controller_id self trace = (trace ++ [request_of 1 5001 1], Ok id)) /\
  (_client self 5001 1 1 = ModbusError ->
   read_modbus_controller_id self trace = (trace ++ [request_of 1 5001 1], Ok 0)) /\
  (_client self 5001 1 1 = ReadInputRegistersResponse [] ->
   read_modbus_controller_id self trace
   = (trace ++ [request_of 1 5001 1], Raise struct_error)) /\
  (forall trace' id,
     read_modbus_controller_id self trace = (trace', Ok id) ->
     trace' = trace ++ [request_of 1 5001 1] /\ 0 <= id <= 65535).
Proof.
  rewrite read_modbus_controller_id_outcome. split; [|split; [|split]].
  - intros id rest -> Hw. cbn [id_outcome]. now rewrite Hw.
  - now intros ->.
  - now intros ->.
  - intros trace' id Heq. injection Heq as <- Hid.
    split; [reflexivity | apply (id_outcome_range _ _ Hid)].
Qed.

(** X2: every mapping the poll returns holds [controller_id], and its value
    is the identity the identity read returned: an integer between 0 and
    65535 other than 103; the poll that returns has sent the four requests
    of the default family. *)
Theorem read_modbus_data_controller_id
    (self : StiebelEltronModbusDataCoordinator) (trace trace' : list request)
    (result : Dict) :
  read_modbus_data self trace = (trace', Ok result) ->
  exists id : Z,
    snd (read_modbus_controller_id self trace) = Ok id /\
    result !! "controller_id" = Some (VInt id) /\
    0 <= id <= 65535 /\ id <> 103 /\
    trace' = trace ++ default_requests.
Proof.
  rewrite read_modbus_data_outcome, read_modbus_controller_id_outcome.
  unfold poll_outcome. cbn [snd].
  destruct (id_outcome (_client self 5001 1 1)) as [id|e] eqn:Hid; [|discriminate].
  destruct (Z.eqb_spec 103 id) as [_|Hne]; [discriminate|].
  destruct (block_outcome 16 _ _) as [energy|e]; [|discriminate].
  destruct (block_outcome 1 _ _) as [system_state|e]; [|discriminate].
  destruct (block_outcome 36 _ _) as [system_values|e]; [|discriminate].
  intros [= <- <-]. exists id.
  split; [reflexivity|]. split; [apply lookup_insert_eq|].
  split; [now apply (id_outcome_range _ _ Hid)|]. split; [congruence | reflexivity].
Qed.

(** X3: whatever the device answers and however the poll ends, the
    requests it sends are an initial part of the identity read followed by
    the energy, system-state and system-values reads, all to unit 1; a poll
    that returns has sent all four, and none ever reads another address. *)
Theorem read_modbus_data_requests
    (self : StiebelEltronModbusDataCoordinator) (trace : list request) :
  exists n : nat,
    (1 <= n <= 4)%nat /\
    fst (read_modbus_data self trace) = trace ++ firstn n default_requests /\
    (is_Ok (snd (read_modbus_data self trace)) = true -> n = 4%nat) /\
    (forall r, r ∈ firstn n default_requests -> req_slave r = 1).
Proof.
  assert (forall n r, r ∈ firstn n default_requests -> req_slave r = 1) as Hunit.
  { intros n r Hr. apply (subseteq_take n default_requests) in Hr.
    unfold default_requests in Hr.
    rewrite !elem_of_cons in Hr.
    destruct Hr as [->|[->|[->|[->|Hr]]]]; try reflexivity.
    now apply elem_of_nil in Hr. }
  rewrite read_modbus_data_outcome. unfold poll_outcome.
  destruct (id_outcome (_client self 5001 1 1)) as [id|e];
    [|exists 1%nat; repeat split; [lia | lia | discriminate | apply Hunit]].
  destruct (103 =? id);
    [exists 1%nat; repeat split; [lia | lia | discriminate | apply Hunit]|].
  destruct (block_outcome 16 _ _) as [energy|e];
    [|exists 2%nat; repeat split; [lia | lia | discriminate | apply Hunit]].
  destruct (block_outcome 1 _ _) as [system_state|e];
    [|exists 3%nat; repeat split; [lia | lia | discriminate | apply Hunit]].
  destruct (block_outcome 36 _ _) as [system_values|e];
    exists 4%nat; repeat split; try lia; apply Hunit.
Qed.

End PollOutcome.

(** ** The blocks on responses of any length *)

Section BlockBounds.
Context `{Const}.

Lemma reg_word (registers : list Z) (i : nat) :
  forallb word16 registers = true ->
  (i < length registers)%nat ->
  0 <= reg registers i <= 65535.
Proof.
  intros Hw Hi. apply word16_range. unfold reg.
  rewrite forallb_forall in Hw. apply Hw. now apply nth_In.
Qed.

(** X7: the energy decoder uses the registers 0..15 of the 22 it asks for:
    a response with at least 16 registers gives the eight energy entries,
    whatever follows; a shorter response makes the block raise
    [struct.error] instead of returning a part. *)
Theorem read_modbus_energy_any_length
    (self : StiebelEltronModbusDataCoordinator) (trace : list request)
    (registers : list Z) :
  _client self 3500 22 1 = ReadInputRegistersResponse registers ->
  forallb word16 registers = true ->
  ((16 <= length registers)%nat ->
   read_modbus_energy self trace
   = (trace ++ [request_of 1 3500 22], Ok (dict_of (energy_expected registers)))) /\
  ((length registers < 16)%nat ->
   read_modbus_energy self trace
   = (trace ++ [request_of 1 3500 22], Raise struct_error)).
Proof.
  intros Hread Hw. rewrite read_modbus_energy_outcome, Hread.
  cbn [block_outcome]. rewrite Hw. cbn [andb]. split; intros Hlen.
  - now rewrite (proj2 (Nat.leb_le 16 (length registers))) by lia.
  - now rewrite (proj2 (Nat.leb_gt 16 (length registers))) by lia.
Qed.

(** X8: the main system-values decoder uses the registers 0..35 of the 40
    it asks for: a response with at least 36 registers gives the sixteen
    entries; a shorter one makes the block raise [struct.error]. *)
Theorem read_modbus_system_values_any_length
    (self : StiebelEltronModbusDataCoordinator) (trace : list request)
    (registers : list Z) :
  _client self 500 40 1 = ReadInputRegistersResponse registers ->
  forallb word16 registers = true ->
  ((36 <= length registers)%nat ->
   read_modbus_system_values self trace
   = (trace ++ [request_of 1 500 40],
      Ok (dict_of (system_values_expected registers)))) /\
  ((length registers < 36)%nat ->
   read_modbus_system_values self trace
   = (trace ++ [request_of 1 500 40], Raise struct_error)).
Proof.
  intros Hread Hw. rewrite read_modbus_system_values_outcome, Hread.
  cbn [block_outcome]. rewrite Hw. cbn [andb]. split; intros Hlen.
  - now rewrite (proj2 (Nat.leb_le 36 (length registers))) by lia.
  - now rewrite (proj2 (Nat.leb_gt 36 (length registers))) by lia.
Qed.

Lemma testbit_state_mask (s n : Z) :
  n = 4 \/ n = 5 \/ n = 7 \/ n = 8 ->
  Z.testbit (Z.land s state_mask) n = Z.testbit s n.
Proof.
  intros Hn. rewrite Z.land_spec.
  destruct Hn as [-> | [-> | [-> | ->]]]; apply andb_true_r.
Qed.

(** X9: the system-state decoder reads the first register of the response
    and nothing else of it, and of that register the bits 4, 5, 7 and 8
    only: two state words that agree on these bits give the same entries. A
    response without registers makes the block raise [struct.error]. *)
Theorem read_modbus_system_state_any_length
    (self : StiebelEltronModbusDataCoordinator) (trace : list request) :
  (forall s rest,
     _client self 2500 1 1 = ReadInputRegistersResponse (s :: rest) ->
     forallb word16 (s :: rest) = true ->
     read_modbus_system_state self trace
     = (trace ++ [request_of 1 2500 1], Ok (dict_of (system_state_expected s)))) /\
  (forall s s',
     Z.land s state_mask = Z.land s' state_mask ->
     system_state_expected s = system_state_expected s') /\
  (_client self 2500 1 1 = ReadInputRegistersResponse [] ->
   read_modbus_system_state self trace
   = (trace ++ [request_of 1 2500 1], Raise struct_error)).
Proof.
  rewrite read_modbus_system_state_outcome. split; [|split].
  - intros s rest -> Hw. cbn [block_outcome]. now rewrite Hw.
  - intros s s' Hmask. unfold system_state_expected.
    rewrite <- (testbit_state_mask s 4), <- (testbit_state_mask s 5),
      <- (testbit_state_mask s 7), <- (testbit_state_mask s 8) by tauto.
    rewrite Hmask.
    now rewrite !testbit_state_mask by tauto.
  - now intros ->.
Qed.

Lemma to_signed_sentinel (w : Z) :
  0 <= w <= 65535 -> (to_signed w = -32768 <-> w = 32768).
Proof. unfold to_signed. destruct (Z.ltb_spec w 32768); lia. Qed.

Lemma system_values_expected_layout (registers : list Z) :
  system_values_expected registers
  = map (fun ki => (ki.1, scaled registers ki.2)) system_values_layout.
Proof. reflexivity. Qed.

Lemma system_values_layout_bound (k : string) (i : nat) :
  (k, i) ∈ system_values_layout -> (i < 36)%nat.
Proof.
  unfold system_values_layout. rewrite !elem_of_cons.
  intros Hin. repeat (destruct Hin as [[= _ ->]|Hin]; [lia|]).
  now apply elem_of_nil in Hin.
Qed.

(** X10: in the result of the main system-values block a key holds [None]
    exactly when its register is 32768 (0x8000, the word of the signed
    sentinel -32768); for every other register it holds the float product
    of the signed reading of the register and 0.1. *)
Theorem read_modbus_system_values_sentinel
    (self : StiebelEltronModbusDataCoordinator) (trace : list request)
    (registers : list Z) :
  _client self 500 40 1 = ReadInputRegistersResponse registers ->
  forallb word16 registers = true ->
  (36 <= length registers)%nat ->
  NoDup system_values_layout.*1 ->
  exists result : Dict,
    read_modbus_system_values self trace = (trace ++ [request_of 1 500 40], Ok result) /\
    forall k i,
      (k, i) ∈ system_values_layout ->
      (result !! k = Some VNone <-> reg registers i = 32768) /\
      (reg registers i <> 32768 ->
       result !! k
       = Some (VFloat (PrimFloat.mul (float_of_Z (to_signed (reg registers i)))
                                     0.1%float))).
Proof.
  intros Hread Hw Hlen Hnd. exists (dict_of (system_values_expected registers)).
  split.
  - rewrite read_modbus_system_values_outcome, Hread. cbn [block_outcome].
    rewrite Hw. cbn [andb].
    now rewrite (proj2 (Nat.leb_le 36 (length registers))) by lia.
  - intros k i Hin.
    assert (dict_of (system_values_expected registers) !! k
            = Some (scaled registers i)) as ->.
    { apply dict_of_lookup.
      - rewrite system_values_expected_layout, <- list_fmap_compose.
        exact Hnd.
      - rewrite system_values_expected_layout.
        apply list_elem_of_fmap. now exists (k, i). }
    pose proof (reg_word registers i Hw
                  ltac:(pose proof (system_values_layout_bound k i Hin); lia))
      as Hrange.
    pose proof (to_signed_sentinel _ Hrange) as Hs.
    unfold scaled, get_isg_scaled_value.
    destruct (Z.eqb_spec (to_signed (reg registers i)) (-32768)) as [Heq|Hne];
      cbn [negb].
    + split; [tauto|]. intros Hreg. tauto.
    + split; [|reflexivity]. split; [discriminate | tauto].
Qed.

Lemma energy_totals_layout_cases (k : string) (hi lo : nat) :
  (k, (hi, lo)) ∈ energy_totals_layout ->
  (hi < 16)%nat /\ (lo < 16)%nat /\
  forall registers,
    (k, VInt (reg registers hi * 1000 + reg registers lo)) ∈ energy_expected registers.
Proof.
  unfold energy_totals_layout. rewrite !elem_of_cons.
  intros Hin.
  repeat (destruct Hin as [[= -> -> ->]|Hin];
          [split; [lia|]; split; [lia|]; intros registers;
           unfold energy_expected; rewrite !elem_of_cons; tauto|]).
  now apply elem_of_nil in Hin.
Qed.

(** X12: every total of the energy block is the integer
    [high * 1000 + low] of its two registers and lies between 0 and
    65600535; when the low register is below 1000 the two registers are
    recovered from the total as its quotient and remainder by 1000. *)
Theorem read_modbus_energy_totals
    (self : StiebelEltronModbusDataCoordinator) (trace : list request)
    (registers : list Z) :
  _client self 3500 22 1 = ReadInputRegistersResponse registers ->
  forallb word16 registers = true ->
  (16 <= length registers)%nat ->
  NoDup (energy_expected registers).*1 ->
  exists result : Dict,
    read_modbus_energy self trace = (trace ++ [request_of 1 3500 22], Ok result) /\
    forall k hi lo,
      (k, (hi, lo)) ∈ energy_totals_layout ->
      exists total : Z,
        result !! k = Some (VInt total) /\
        total = reg registers hi * 1000 + reg registers lo /\
        0 <= total <= 65600535 /\
        (reg registers lo < 1000 ->
         total / 1000 = reg registers hi /\ total mod 1000 = reg registers lo).
Proof.
  intros Hread Hw Hlen Hnd. exists (dict_of (energy_expected registers)). split.
  - rewrite read_modbus_energy_outcome, Hread. cbn [block_outcome].
    rewrite Hw. cbn [andb].
    now rewrite (proj2 (Nat.leb_le 16 (length registers))) by lia.
  - intros k hi lo Hin.
    destruct (energy_totals_layout_cases k hi lo Hin) as (Hhi & Hlo & Hexp).
    pose proof (reg_word registers hi Hw ltac:(lia)) as Rhi.
    pose proof (reg_word registers lo Hw ltac:(lia)) as Rlo.
    exists (reg registers hi * 1000 + reg registers lo).
    split; [now apply dict_of_lookup|]. split; [reflexivity|]. split; [lia|].
    intros Hlow. split.
    + symmetry. apply (Z.div_unique _ _ _ (reg registers lo)); lia.
    + symmetry. apply (Z.mod_unique _ _ (reg registers hi)); lia.
Qed.

(** X13: in the mapping a poll returns, [controller_id] is the identity
    even if a block stored that key, and any other key holds what the last
    of the blocks that stored it wrote: the system values before the system
    state before the energy block. *)
Theorem read_modbus_data_merge
    (self : StiebelEltronModbusDataCoordinator) (trace trace' : list request)
    (result : Dict) :
  read_modbus_data self trace = (trace', Ok result) ->
  exists (id : Z) (energy system_state system_values : Dict),
    snd (read_modbus_controller_id self trace) = Ok id /\
    snd (read_modbus_energy self trace) = Ok energy /\
    snd (read_modbus_system_state self trace) = Ok system_state /\
    snd (read_modbus_system_values self trace) = Ok system_values /\
    forall k : string,
      result !! k
      = if decide (k = "controller_id") then Some (VInt id)
        else match system_values !! k with
             | Some v => Some v
             | None =>
                 match system_state !! k with
                 | Some v => Some v
                 | None => energy !! k
                 end
             end.
Proof.
  rewrite read_modbus_data_outcome, read_modbus_controller_id_outcome,
    read_modbus_energy_outcome, read_modbus_system_state_outcome,
    read_modbus_system_values_outcome.
  unfold poll_outcome. cbn [snd].
  destruct (id_outcome (_client self 5001 1 1)) as [id|e]; [|discriminate].
  destruct (103 =? id); [discriminate|].
  destruct (block_outcome 16 _ _) as [energy|e]; [|discriminate].
  destruct (block_outcome 1 _ _) as [system_state|e]; [|discriminate].
  destruct (block_outcome 36 _ _) as [system_values|e]; [|discriminate].
  intros [= <- <-]. exists id, energy, system_state, system_values.
  repeat (split; [reflexivity|]). intros k.
  destruct (decide (k = "controller_id")) as [->|Hk].
  - apply lookup_insert_eq.
  - rewrite lookup_insert_ne by congruence. unfold dict_update.
    rewrite !lookup_union, lookup_empty.
    destruct (system_values !! k), (system_state !! k), (energy !! k); reflexivity.
Qed.

(** X14: a response too short for its decoder is not swallowed like a
    transport error: the poll stops at that block with [struct.error], the
    blocks after it are not read, nothing of the blocks before it is
    returned, and the update fails with [UpdateFailed]. *)
Theorem read_modbus_data_decode_error
    (self : StiebelEltronModbusDataCoordinator) (trace : list request) (id : Z) :
  _client self 5001 1 1 = ReadInputRegistersResponse [id] ->
  word16 id = true ->
  id <> 103 ->
  (forall registers,
     _client self 3500 22 1 = ReadInputRegistersResponse registers ->
     (length registers < 16)%nat ->
     read_modbus_data self trace
     = (trace ++ firstn 2 default_requests, Raise struct_error) /\
     _async_update_data self trace
     = (trace ++ firstn 2 default_requests, Raise (UpdateFailed struct_error))) /\
  (well_formed 22 (_client self 3500 22 1) = true ->
   _client self 2500 1 1 = ReadInputRegistersResponse [] ->
   read_modbus_data self trace
   = (trace ++ firstn 3 default_requests, Raise struct_error) /\
   _async_update_data self trace
   = (trace ++ firstn 3 default_requests, Raise (UpdateFailed struct_error))) /\
  (well_formed 22 (_client self 3500 22 1) = true ->
   well_formed 1 (_client self 2500 1 1) = true ->
   forall registers,
     _client self 500 40 1 = ReadInputRegistersResponse registers ->
     (length registers < 36)%nat ->
     read_modbus_data self trace
     = (trace ++ default_requests, Raise struct_error) /\
     _async_update_data self trace
     = (trace ++ default_requests, Raise (UpdateFailed struct_error))).
Proof.
  intros Hread Hid Hne.
  assert (forall t e, read_modbus_data self trace = (t, Raise e) ->
            read_modbus_data self trace = (t, Raise e) /\
            _async_update_data self trace = (t, Raise (UpdateFailed e))) as Hboth
    by (intros t e Hp; split; [exact Hp | now apply _async_update_data_raise]).
  assert (id_outcome (_client self 5001 1 1) = Ok id) as Hido
    by (rewrite Hread; cbn; now rewrite Hid).
  assert ((103 =? id) = false) as H103 by (apply Z.eqb_neq; congruence).
  split; [|split].
  - intros registers Henergy Hlen. apply Hboth.
    rewrite read_modbus_data_outcome. unfold poll_outcome.
    rewrite Hido, H103, Henergy. now rewrite block_outcome_short.
  - intros Hwe Hstate. apply Hboth.
    rewrite read_modbus_data_outcome. unfold poll_outcome. rewrite Hido, H103.
    destruct (block_outcome_well_formed 22 16 energy_expected _ Hwe ltac:(lia))
      as [energy ->].
    rewrite Hstate. now rewrite block_outcome_short by (cbn; lia).
  - intros Hwe Hws registers Hvalues Hlen. apply Hboth.
    rewrite read_modbus_data_outcome. unfold poll_outcome. rewrite Hido, H103.
    destruct (block_outcome_well_formed 22 16 energy_expected _ Hwe ltac:(lia))
      as [energy ->].
    destruct (block_outcome_well_formed 1 1
                (fun registers => system_state_expected (reg registers 0)) _ Hws
                ltac:(lia)) as [system_state ->].
    rewrite Hvalues. now rewrite block_outcome_short.
Qed.

End BlockBounds.

(** ** The parser on every schema and decoder *)

Section ParserBounds.

Lemma parse_entry_ok_inv (valname : option string) (valtype : Z)
    (result result1 : Dict) (d d1 : BinaryPayloadDecoder) :
  parse_entry (valname, valtype) result d = (d1, Ok result1) ->
  d1 = advance 2 d /\
  (_pointer d + 2 <= length (_payload d))%nat /\
  handled valtype = true /\
  exists v, store result valname (composite valtype) v = Ok result1.
Proof.
  destruct (handled valtype) eqn:Hh;
    [|rewrite parse_entry_unhandled by exact Hh; discriminate].
  destruct (le_lt_dec (_pointer d + 2) (length (_payload d))) as [Hle|Hlt].
  - destruct (parse_entry_available valname valtype result d Hh Hle) as [v ->].
    intros [= <- Hs]. repeat split; try assumption. now exists v.
  - rewrite parse_entry_exhausted by assumption. discriminate.
Qed.

Lemma store_lookup_None (result result1 : Dict) (valname : option string)
    (comp : bool) (v : value) (n : string) :
  store result valname comp v = Ok result1 ->
  (result1 !! n = None <-> result !! n = None /\ valname <> Some n).
Proof.
  destruct valname as [m|]; cbn [store].
  2:{ intros [= <-]. split; [intros Hn; split; [exact Hn | discriminate] | tauto]. }
  assert (forall x, (<[m := x]> result) !! n = None
                    <-> result !! n = None /\ Some m <> Some n) as Hins.
  { intros x. destruct (decide (m = n)) as [->|Hne].
    - rewrite lookup_insert_eq. split; [discriminate | intros [_ Hc]; congruence].
    - rewrite lookup_insert_ne by exact Hne.
      split; [intros Hn; split; [exact Hn | congruence] | tauto]. }
  destruct comp.
  - unfold setdefault_append.
    destruct (result !! m) as [[| | | |l]|]; try discriminate;
      intros [= <-]; apply Hins.
  - intros [= <-]. apply Hins.
Qed.

Lemma parse_loop_ok_inv (values_map : list (option string * Z)) :
  forall (result result' : Dict) (d d' : BinaryPayloadDecoder),
    parse_loop values_map result d = (d', Ok result') ->
    d' = advance (2 * length values_map) d /\
    (values_map <> [] ->
     (_pointer d + 2 * length values_map <= length (_payload d))%nat) /\
    forall n, result' !! n = None
              <-> result !! n = None /\ forall t, (Some n, t) ∉ values_map.
Proof.
  induction values_map as [|[valname valtype] rest IH]; intros result result' d d'.
  - intros [= <- <-]. split; [|split].
    + destruct d as [payload pointer]. unfold advance. cbn. now rewrite Nat.add_0_r.
    + intros Hne. now contradiction Hne.
    + intros n. split; [|tauto]. intros Hn. split; [exact Hn|].
      intros t Hin. now apply elem_of_nil in Hin.
  - cbn [parse_loop]. unfold bind.
    destruct (parse_entry (valname, valtype) result d) as [d1 [result1|e]] eqn:Hstep;
      [|discriminate].
    apply parse_entry_ok_inv in Hstep as (-> & Hbytes & _ & v & Hstore).
    intros Hloop. apply IH in Hloop as (-> & Hrest & Hkeys).
    split; [|split].
    + unfold advance. cbn [_payload _pointer length]. f_equal. lia.
    + intros _. destruct rest as [|entry rest]; [cbn [length]; lia|].
      specialize (Hrest ltac:(discriminate)).
      cbn [advance _payload _pointer length] in *. lia.
    + intros n. rewrite Hkeys, (store_lookup_None _ _ _ _ _ n Hstore).
      split.
      * intros [[Hn Hname] Hnot]. split; [exact Hn|].
        intros t Hin. apply elem_of_cons in Hin as [[= Heq _]|Hin];
          [congruence | now apply (Hnot t)].
      * intros [Hn Hnot]. split; [split; [exact Hn|]|].
        -- intros ->. apply (Hnot valtype), list_elem_of_here.
        -- intros t Hin. apply (Hnot t). by apply list_elem_of_further.
Qed.

(** X4: whenever the parser returns, it has left the payload alone and
    moved the pointer of the decoder by exactly two bytes for each entry of
    the schema, named or not, and not beyond the end of the payload. *)
Theorem parse_modbus_values_by_map_pointer
    (values_map : list (option string * Z)) (d d' : BinaryPayloadDecoder)
    (result : Dict) :
  parse_modbus_values_by_map values_map d = (d', Ok result) ->
  _payload d' = _payload d /\
  _pointer d' = (_pointer d + 2 * length values_map)%nat /\
  (values_map <> [] -> (_pointer d' <= length (_payload d'))%nat).
Proof.
  unfold parse_modbus_values_by_map. intros Hparse.
  apply parse_loop_ok_inv in Hparse as (-> & Hbytes & _).
  cbn [advance _payload _pointer]. repeat split. exact Hbytes.
Qed.

(** X6: the keys of the mapping the parser returns are exactly the names
    of the schema: a name of the schema is always present, and no other key
    ever is. *)
Theorem parse_modbus_values_by_map_keys
    (values_map : list (option string * Z)) (d d' : BinaryPayloadDecoder)
    (result : Dict) :
  parse_modbus_values_by_map values_map d = (d', Ok result) ->
  forall n : string,
    is_Some (result !! n) <-> exists t, (Some n, t) ∈ values_map.
Proof.
  unfold parse_modbus_values_by_map. intros Hparse n.
  apply parse_loop_ok_inv in Hparse as (_ & _ & Hkeys).
  specialize (Hkeys n). rewrite lookup_empty in Hkeys.
  rewrite <- not_eq_None_Some. split.
  - intros Hsome.
    destruct (decide (Exists (fun entry => entry.1 = Some n) values_map))
      as [Hex|Hnex].
    + apply Exists_exists in Hex as [[valname t] [Hin Hname]].
      cbn in Hname. subst valname. now exists t.
    + contradiction Hsome. apply Hkeys. split; [reflexivity|].
      intros t Hin. apply Hnex, Exists_exists. now exists (Some n, t).
  - intros [t Hin] Hnone. apply Hkeys in Hnone as [_ Hnot]. now apply (Hnot t).
Qed.

Lemma unmixed_take (k : nat) (values_map : list (option string * Z)) :
  unmixed values_map -> unmixed (take k values_map).
Proof.
  intros Hu n t1 t2 H1 H2.
  apply (Hu n); now apply (subseteq_take k values_map).
Qed.

Lemma forallb_take {A} (p : A -> bool) (k : nat) (l : list A) :
  forallb p l = true -> forallb p (take k l) = true.
Proof.
  rewrite !forallb_forall. intros Hl x Hx. apply Hl.
  apply list_elem_of_In. apply list_elem_of_In in Hx.
  now apply (subseteq_take k l).
Qed.

(** X5: a schema over fewer words than it has entries never parses: over
    any decoder with less than two bytes per entry left the parser returns
    no mapping, and when the type codes are handled and no name is used both
    with and without the composite bit it raises [struct.error] at the first
    entry without a word. *)
Theorem parse_modbus_values_by_map_underflow
    (values_map : list (option string * Z)) :
  (forall d : BinaryPayloadDecoder,
     (length (_payload d) < _pointer d + 2 * length values_map)%nat ->
     (_pointer d <= length (_payload d))%nat ->
     is_Ok (snd (parse_modbus_values_by_map values_map d)) = false) /\
  (forall registers : list Z,
     (length registers < length values_map)%nat ->
     forallb (fun entry => handled entry.2) values_map = true ->
     unmixed values_map ->
     parse_modbus_values_by_map values_map (decoder_at registers 0)
     = (decoder_at registers (S (length registers)), Raise struct_error)).
Proof.
  split.
  - intros d Hshort Hpointer. unfold parse_modbus_values_by_map.
    destruct (parse_loop values_map ∅ d) as [d' [result|e]] eqn:Hparse;
      [|reflexivity].
    apply parse_loop_ok_inv in Hparse as (_ & Hbytes & _).
    destruct values_map as [|entry rest]; [cbn [length] in Hshort; lia|].
    specialize (Hbytes ltac:(discriminate)). lia.
  - intros registers Hlen Hh Hu. unfold parse_modbus_values_by_map.
    destruct (lookup_lt_is_Some_2 values_map (length registers) Hlen)
      as [[valname valtype] Hentry].
    rewrite <- (take_drop_middle _ _ _ Hentry), parse_loop_app.
    destruct (parse_loop_spec (take (length registers) values_map) registers 0 ∅)
      as (result' & Hloop & _).
    + now apply forallb_take.
    + now apply unmixed_take.
    + rewrite length_take. lia.
    + intros n _. left. apply lookup_empty.
    + erewrite bind_ok by exact Hloop.
      rewrite length_take_le by lia. cbn [Nat.add].
      apply parse_loop_cons_raise.
      rewrite parse_entry_exhausted.
      * f_equal. unfold advance, decoder_at. cbn [_payload _pointer]. f_equal. lia.
      * rewrite forallb_forall in Hh.
        apply (Hh (valname, valtype)), list_elem_of_In.
        apply list_elem_of_lookup. now exists (length registers).
      * unfold decoder_at. cbn [_payload _pointer]. rewrite length_payload_of. lia.
Qed.

End ParserBounds.

(** ** The range of the scaled values *)

Lemma all_from_sound (p : Z -> bool) (fuel : nat) :
  forall w : Z,
    all_from fuel w p = true ->
    forall x : Z, w <= x < w + Z.of_nat fuel -> p x = true.
Proof.
  induction fuel as [|fuel IH]; intros w Hall x Hx; [lia|].
  cbn [all_from] in Hall. apply andb_true_iff in Hall as [Hw Hrest].
  destruct (Z.eq_dec x w) as [->|Hne]; [exact Hw|].
  apply (IH (w + 1) Hrest). lia.
Qed.

(** X11: for every signed 16-bit value other than the sentinel,
    [get_isg_scaled_value] returns a float between -3276.75 and 3276.75
    (never [None], an infinity or a NaN), and the float of [v + 1] is
    strictly above the float of [v]: no two neighbouring raw values decode
    to the same reading. *)
Theorem get_isg_scaled_value_range (v : Z) :
  -32767 <= v <= 32767 ->
  (exists f : float,
     get_isg_scaled_value v = VFloat f /\
     PrimFloat.leb (-3276.75)%float f = true /\
     PrimFloat.leb f 3276.75%float = true) /\
  (v < 32767 ->
   exists f g : float,
     get_isg_scaled_value v = VFloat f /\
     get_isg_scaled_value (v + 1) = VFloat g /\
     PrimFloat.ltb f g = true).
Proof.
  intros Hv. split.
  - assert (scaled_in_range v = true) as Hr.
    { apply (all_from_sound scaled_in_range (Z.to_nat 65535) (-32767));
        [vm_compute; reflexivity | lia]. }
    unfold scaled_in_range in Hr.
    destruct (get_isg_scaled_value v) as [| | |f|]; try discriminate.
    apply andb_true_iff in Hr as [Hlo Hhi]. now exists f.
  - intros Hlt.
    assert (scaled_step_up v = true) as Hr.
    { apply (all_from_sound scaled_step_up (Z.to_nat 65534) (-32767));
        [vm_compute; reflexivity | lia]. }
    unfold scaled_step_up in Hr.
    destruct (get_isg_scaled_value v) as [| | |f|]; try discriminate.
    destruct (get_isg_scaled_value (v + 1)) as [| | |g|]; try discriminate.
    now exists f, g.
Qed.

(** ** The further properties on sample devices *)

Lemma read_modbus_controller_id_spec_witness :
  @read_modbus_controller_id
     (constant_device (ReadInputRegistersResponse [7; 8])) []
  = ([request_of 1 5001 1], Ok 7) /\
  @read_modbus_controller_id (constant_device ModbusError) []
  = ([request_of 1 5001 1], Ok 0) /\
  @read_modbus_controller_id (constant_device (ReadInputRegistersResponse [])) []
  = ([request_of 1 5001 1], Raise struct_error).
Proof.
  split; [|split].
  - exact (proj1 (read_modbus_controller_id_spec
                    (constant_device (ReadInputRegistersResponse [7; 8])) [])
                 7 [8] eq_refl eq_refl).
  - exact (proj1 (proj2 (read_modbus_controller_id_spec
                           (constant_device ModbusError) [])) eq_refl).
  - exact (proj1 (proj2 (proj2 (read_modbus_controller_id_spec
                                  (constant_device (ReadInputRegistersResponse []))
                                  []))) eq_refl).
Defined.

Lemma read_modbus_data_controller_id_witness :
  exists id : Z,
    snd (read_modbus_controller_id
           (sample_device (ReadInputRegistersResponse [2]) []) []) = Ok id /\
    0 <= id <= 65535 /\ id <> 103.
Proof.
  pose proof (@read_modbus_data_default const_sample
                (sample_device (ReadInputRegistersResponse [2]) []) [] 2
                eq_refl eq_refl ltac:(lia) eq_refl) as Hpoll.
  destruct (@read_modbus_data_controller_id const_sample _ _ _ _ Hpoll)
    as (id & Hid & _ & Hrange & Hne & _).
  exists id. repeat split; try assumption; lia.
Defined.

Lemma read_modbus_data_requests_witness :
  exists n : nat,
    (1 <= n <= 4)%nat /\
    fst (@read_modbus_data const_sample
           (sample_device (ReadInputRegistersResponse [103]) []) [])
    = firstn n default_requests.
Proof.
  destruct (@read_modbus_data_requests const_sample
              (sample_device (ReadInputRegistersResponse [103]) []) [])
    as (n & Hn & Hfst & _).
  exists n. split; [exact Hn | exact Hfst].
Defined.

Lemma parse_modbus_values_by_map_pointer_witness :
  exists (d' : BinaryPayloadDecoder) (result : Dict),
    parse_modbus_values_by_map sample_values_map (decoder_at sample_words 0)
    = (d', Ok result) /\
    _pointer d' = 10%nat.
Proof.
  destruct (parse_loop_spec sample_values_map sample_words 0 ∅ eq_refl
              (unmixedb_sound sample_values_map eq_refl))
    as (result & Hparse & _).
  - vm_compute. lia.
  - intros n _. left. apply lookup_empty.
  - exists (decoder_at sample_words (0 + length sample_values_map)), result.
    split; [exact Hparse|].
    exact (proj1 (proj2 (parse_modbus_values_by_map_pointer _ _ _ _ Hparse))).
Defined.

Lemma parse_modbus_values_by_map_underflow_witness :
  parse_modbus_values_by_map sample_values_map (decoder_at [1; 2; 3] 0)
  = (decoder_at [1; 2; 3] 4, Raise struct_error).
Proof.
  apply (proj2 (parse_modbus_values_by_map_underflow sample_values_map) [1; 2; 3]).
  - vm_compute. lia.
  - reflexivity.
  - apply unmixedb_sound. reflexivity.
Defined.

Lemma parse_modbus_values_by_map_keys_witness :
  exists (d' : BinaryPayloadDecoder) (result : Dict),
    parse_modbus_values_by_map sample_values_map (decoder_at sample_words 0)
    = (d', Ok result) /\
    is_Some (result !! "a") /\ is_Some (result !! "b") /\ result !! "c" = None.
Proof.
  destruct (parse_loop_spec sample_values_map sample_words 0 ∅ eq_refl
              (unmixedb_sound sample_values_map eq_refl))
    as (result & Hparse & _).
  - vm_compute. lia.
  - intros n _. left. apply lookup_empty.
  - exists (decoder_at sample_words (0 + length sample_values_map)), result.
    split; [exact Hparse|].
    pose proof (parse_modbus_values_by_map_keys _ _ _ _ Hparse) as Hkeys.
    split; [|split].
    + apply Hkeys. exists (Z.lor ISG_TYPE_6 ISG_TYPE_C). apply list_elem_of_here.
    + apply Hkeys. exists ISG_TYPE_2. unfold sample_values_map.
      rewrite !elem_of_cons. tauto.
    + apply eq_None_not_Some. intros Hsome. apply Hkeys in Hsome as [t Hin].
      unfold sample_values_map in Hin. rewrite !elem_of_cons in Hin.
      repeat (destruct Hin as [Hin|Hin]; [discriminate Hin|]).
      now apply elem_of_nil in Hin.
Defined.

Lemma read_modbus_energy_any_length_witness :
  @read_modbus_energy const_sample
     (constant_device (ReadInputRegistersResponse (sample_registers 0 16))) []
  = ([request_of 1 3500 22],
     Ok (dict_of (@energy_expected const_sample (sample_registers 0 16)))) /\
  @read_modbus_energy const_sample
     (constant_device (ReadInputRegistersResponse (sample_registers 0 15))) []
  = ([request_of 1 3500 22], Raise struct_error).
Proof.
  split.
  - apply (proj1 (@read_modbus_energy_any_length const_sample
                    (constant_device
                       (ReadInputRegistersResponse (sample_registers 0 16)))
                    [] (sample_registers 0 16) eq_refl eq_refl)).
    vm_compute. lia.
  - apply (proj2 (@read_modbus_energy_any_length const_sample
                    (constant_device
                       (ReadInputRegistersResponse (sample_registers 0 15)))
                    [] (sample_registers 0 15) eq_refl eq_refl)).
    vm_compute. lia.
Defined.

Lemma read_modbus_system_values_any_length_witness :
  @read_modbus_system_values const_sample
     (constant_device (ReadInputRegistersResponse (sample_registers 0 36))) []
  = ([request_of 1 500 40],
     Ok (dict_of (@system_values_expected const_sample (sample_registers 0 36)))) /\
  @read_modbus_system_values const_sample
     (constant_device (ReadInputRegistersResponse (sample_registers 0 35))) []
  = ([request_of 1 500 40], Raise struct_error).
Proof.
  split.
  - apply (proj1 (@read_modbus_system_values_any_length const_sample
                    (constant_device
                       (ReadInputRegistersResponse (sample_registers 0 36)))
                    [] (sample_registers 0 36) eq_refl eq_refl)).
    vm_compute. lia.
  - apply (proj2 (@read_modbus_system_values_any_length const_sample
                    (constant_device
                       (ReadInputRegistersResponse (sample_registers 0 35)))
                    [] (sample_registers 0 35) eq_refl eq_refl)).
    vm_compute. lia.
Defined.

Lemma read_modbus_system_state_any_length_witness :
  @read_modbus_system_state const_sample
     (constant_device (ReadInputRegistersResponse [304; 7])) []
  = ([request_of 1 2500 1], Ok (dict_of (@system_state_expected const_sample 304))) /\
  @system_state_expected const_sample 304
  = @system_state_expected const_sample (304 + 1 + 2 + 64 + 1024) /\
  @read_modbus_system_state const_sample
     (constant_device (ReadInputRegistersResponse [])) []
  = ([request_of 1 2500 1], Raise struct_error).
Proof.
  split; [|split].
  - exact (proj1 (@read_modbus_system_state_any_length const_sample
                    (constant_device (ReadInputRegistersResponse [304; 7])) [])
                 304 [7] eq_refl eq_refl).
  - exact (proj1 (proj2 (@read_modbus_system_state_any_length const_sample
                           (constant_device ModbusError) []))
                 304 (304 + 1 + 2 + 64 + 1024) eq_refl).
  - exact (proj2 (proj2 (@read_modbus_system_state_any_length const_sample
                           (constant_device (ReadInputRegistersResponse [])) []))
                 eq_refl).
Defined.

Lemma read_modbus_system_values_sentinel_witness :
  exists result : Dict,
    @read_modbus_system_values const_sample
       (constant_device
          (ReadInputRegistersResponse (<[35%nat := 32768]> (sample_registers 0 40))))
       []
    = ([request_of 1 500 40], Ok result) /\
    result !! "source_temperature" = Some VNone /\
    result !! "actual_temperature_water" = Some (get_isg_scaled_value 21).
Proof.
  destruct (@read_modbus_system_values_sentinel const_sample
              (constant_device
                 (ReadInputRegistersResponse
                    (<[35%nat := 32768]> (sample_registers 0 40))))
              [] (<[35%nat := 32768]> (sample_registers 0 40)))
    as (result & Hrun & Hkeys).
  - reflexivity.
  - vm_compute. reflexivity.
  - vm_compute. lia.
  - apply (bool_decide_unpack _). vm_compute. exact I.
  - exists result. split; [exact Hrun|]. split.
    + apply (Hkeys "source_temperature" 35%nat); [|reflexivity].
      unfold system_values_layout. cbn. rewrite !elem_of_cons. tauto.
    + apply (Hkeys "actual_temperature_water" 21%nat); [|vm_compute; lia].
      unfold system_values_layout. cbn. rewrite !elem_of_cons. tauto.
Defined.

Lemma get_isg_scaled_value_range_witness :
  exists f : float,
    get_isg_scaled_value 235 = VFloat f /\
    PrimFloat.leb (-3276.75)%float f = true /\
    PrimFloat.leb f 3276.75%float = true.
Proof. apply (get_isg_scaled_value_range 235). lia. Defined.

Lemma read_modbus_energy_totals_witness :
  exists result : Dict,
    @read_modbus_energy const_sample
       (constant_device (ReadInputRegistersResponse (sample_registers 0 22))) []
    = ([request_of 1 3500 22], Ok result) /\
    exists total : Z,
      result !! "produced_heating_total" = Some (VInt total) /\
      total = 2001 /\ total / 1000 = 2 /\ total mod 1000 = 1.
Proof.
  destruct (@read_modbus_energy_totals const_sample
              (constant_device (ReadInputRegistersResponse (sample_registers 0 22)))
              [] (sample_registers 0 22) eq_refl eq_refl)
    as (result & Hrun & Htotals).
  - vm_compute. lia.
  - apply (bool_decide_unpack _). vm_compute. exact I.
  - exists result. split; [exact Hrun|].
    destruct (Htotals "produced_heating_total" 2%nat 1%nat)
      as (total & Hlookup & Htotal & _ & Hrecover).
    { unfold energy_totals_layout. cbn. rewrite !elem_of_cons. tauto. }
    exists total. split; [exact Hlookup|]. split; [exact Htotal|].
    apply Hrecover. vm_compute. reflexivity.
Defined.

Lemma read_modbus_data_merge_witness :
  exists (id : Z) (energy system_state system_values : Dict),
    snd (@read_modbus_energy const_sample
           (sample_device (ReadInputRegistersResponse [2]) []) []) = Ok energy /\
    snd (@read_modbus_system_state const_sample
           (sample_device (ReadInputRegistersResponse [2]) []) []) = Ok system_state /\
    snd (@read_modbus_system_values const_sample
           (sample_device (ReadInputRegistersResponse [2]) []) []) = Ok system_values /\
    id = 2.
Proof.
  pose proof (@read_modbus_data_default const_sample
                (sample_device (ReadInputRegistersResponse [2]) []) [] 2
                eq_refl eq_refl ltac:(lia) eq_refl) as Hpoll.
  destruct (@read_modbus_data_merge const_sample _ _ _ _ Hpoll)
    as (id & energy & system_state & system_values & Hid & He & Hs & Hv & _).
  exists id, energy, system_state, system_values.
  repeat split; try assumption.
  rewrite read_modbus_controller_id_outcome in Hid. now injection Hid as <-.
Defined.

Lemma read_modbus_data_decode_error_witness :
  @_async_update_data const_sample
     (table_device
        [(5001, ReadInputRegistersResponse [2]);
         (3500, ReadInputRegistersResponse (sample_registers 3500 15))]) []
  = ([request_of 1 5001 1; request_of 1 3500 22], Raise (UpdateFailed struct_error)).
Proof.
  apply (proj1 (@read_modbus_data_decode_error const_sample
                  (table_device
                     [(5001, ReadInputRegistersResponse [2]);
                      (3500, ReadInputRegistersResponse (sample_registers 3500 15))])
                  [] 2 eq_refl eq_refl ltac:(lia))
           (sample_registers 3500 15) eq_refl ltac:(vm_compute; lia)).
Defined.

(** ** The parser on every schema with handled type codes *)

Section ParserExact.

Lemma decode_value_scalar (valtype w : Z) :
  is_scalar (Some (decode_value valtype w)) = true.
Proof.
  unfold decode_value, get_isg_scaled_value.
  destruct (base_type valtype =? ISG_TYPE_2); [|reflexivity].
  destruct (negb (to_signed w =? -32768)); reflexivity.
Qed.

Lemma setdefault_append_scalar (result : Dict) (n : string) (v : value) :
  is_scalar (result !! n) = true ->
  setdefault_append result n v = Raise (AttributeError "append").
Proof.
  unfold setdefault_append, is_scalar.
  destruct (result !! n) as [[| | | |l]|]; try discriminate; reflexivity.
Qed.

Lemma setdefault_append_list (result : Dict) (n : string) (v : value) :
  is_scalar (result !! n) = false ->
  setdefault_append result n v
  = Ok (<[n := VList (match result !! n with Some (VList l) => l | _ => [] end
                      ++ [v])]> result).
Proof.
  unfold setdefault_append, is_scalar.
  destruct (result !! n) as [[| | | |l]|]; try discriminate; reflexivity.
Qed.

(** The check from left to right decides [composite_first]. *)
Lemma composite_ok_spec (values_map : list (option string * Z)) :
  forall scalar : string -> bool,
    composite_ok scalar values_map = true <->
    composite_first values_map /\
    forall n t, (Some n, t) ∈ values_map -> composite t = true -> scalar n = false.
Proof.
  induction values_map as [|[[m|] t] rest IH]; intros scalar;
    cbn [composite_ok composite_first].
  - split; [|reflexivity]. intros _. split; [exact I|].
    intros n t Hin. now apply elem_of_nil in Hin.
  - destruct (composite t) eqn:Hc.
    + rewrite andb_true_iff, negb_true_iff, IH. split.
      * intros [Hm [Hcf HP]]. split; [split; [discriminate | exact Hcf]|].
        intros n t' Hin Hct. apply elem_of_cons in Hin as [Heq|Hin].
        -- injection Heq as -> ->. exact Hm.
        -- now apply (HP n t').
      * intros [[_ Hcf] HP]. split; [|split; [exact Hcf|]].
        -- apply (HP m t); [apply list_elem_of_here | exact Hc].
        -- intros n t' Hin Hct. apply (HP n t'); [|exact Hct].
           by apply list_elem_of_further.
    + rewrite IH. split.
      * intros [Hcf HP]. split; [split; [|exact Hcf]|].
        -- intros _ n t2 Heq Hin. injection Heq as <-.
           destruct (composite t2) eqn:Hc2; [|reflexivity].
           specialize (HP m t2 Hin Hc2). cbn beta in HP.
           rewrite String.eqb_refl in HP. discriminate.
        -- intros n t' Hin Hct. apply elem_of_cons in Hin as [Heq|Hin].
           ++ injection Heq as -> ->. congruence.
           ++ specialize (HP n t' Hin Hct). cbn beta in HP.
              destruct (String.eqb n m); [discriminate | exact HP].
      * intros [[Hplain Hcf] HP]. split; [exact Hcf|].
        intros n t' Hin Hct. cbn beta.
        destruct (String.eqb_spec n m) as [->|Hne].
        -- rewrite (Hplain eq_refl m t' eq_refl Hin) in Hct. discriminate.
        -- apply (HP n t'); [|exact Hct]. by apply list_elem_of_further.
  - rewrite IH. split.
    + intros [Hcf HP]. split; [split; [|exact Hcf]|].
      * intros _ n t2 Heq. discriminate Heq.
      * intros n t' Hin Hct. apply elem_of_cons in Hin as [Heq|Hin];
          [discriminate Heq | now apply (HP n t')].
    + intros [[_ Hcf] HP]. split; [exact Hcf|].
      intros n t' Hin Hct. apply (HP n t'); [|exact Hct].
      by apply list_elem_of_further.
Qed.

Lemma composite_firstb_spec (values_map : list (option string * Z)) :
  composite_firstb values_map = true <-> composite_first values_map.
Proof.
  unfold composite_firstb. rewrite composite_ok_spec. split; [tauto|].
  intros Hcf. split; [exact Hcf | reflexivity].
Qed.

Lemma flagged_values_other (comp : bool) (n : string) (valname : option string)
    (valtype : Z) (rest : list (option string * Z)) (w : Z) (ws : list Z) :
  valname <> Some n ->
  flagged_values comp n ((valname, valtype) :: rest) (w :: ws)
  = flagged_values comp n rest ws.
Proof.
  intros Hne. cbn [flagged_values].
  now rewrite bool_decide_eq_false_2 by exact Hne.
Qed.

Lemma flagged_values_same (comp : bool) (n : string) (valtype : Z)
    (rest : list (option string * Z)) (w : Z) (ws : list Z) :
  flagged_values comp n ((Some n, valtype) :: rest) (w :: ws)
  = if Bool.eqb (composite valtype) comp
    then decode_value valtype w :: flagged_values comp n rest ws
    else flagged_values comp n rest ws.
Proof.
  cbn [flagged_values]. now rewrite bool_decide_eq_true_2 by reflexivity.
Qed.

Lemma flagged_values_none (comp : bool) (n : string)
    (values_map : list (option string * Z)) :
  (forall t, (Some n, t) ∈ values_map -> composite t <> comp) ->
  forall ws, flagged_values comp n values_map ws = [].
Proof.
  induction values_map as [|[valname valtype] rest IH]; intros Hnone ws;
    [reflexivity|].
  destruct ws as [|w ws]; [reflexivity|]. cbn [flagged_values].
  destruct (bool_decide (valname = Some n)) eqn:Hname; cbn [andb].
  - apply bool_decide_eq_true_1 in Hname as ->.
    rewrite (proj2 (eqb_false_iff _ _) (Hnone valtype (list_elem_of_here _ _))).
    apply IH. intros t Hin. apply Hnone. by apply list_elem_of_further.
  - apply IH. intros t Hin. apply Hnone. by apply list_elem_of_further.
Qed.

Lemma merge_stored_other (n : string) (valname : option string) (valtype : Z)
    (rest : list (option string * Z)) (w : Z) (ws : list Z) (cur : option value) :
  valname <> Some n ->
  merge_stored n ((valname, valtype) :: rest) (w :: ws) cur
  = merge_stored n rest ws cur.
Proof.
  intros Hne. unfold merge_stored. now rewrite !flagged_values_other by exact Hne.
Qed.

Lemma merge_stored_composite (n : string) (valtype : Z)
    (rest : list (option string * Z)) (w : Z) (ws : list Z) (cur : option value) :
  composite valtype = true ->
  merge_stored n ((Some n, valtype) :: rest) (w :: ws) cur
  = merge_stored n rest ws
      (Some (VList (match cur with Some (VList l) => l | _ => [] end
                    ++ [decode_value valtype w]))).
Proof.
  intros Hc. unfold merge_stored. rewrite !flagged_values_same, Hc. cbn [Bool.eqb].
  destruct (flagged_values false n rest ws) as [|v vs]; [|reflexivity].
  destruct (flagged_values true n rest ws) as [|c cs]; [reflexivity|].
  now rewrite <- app_assoc.
Qed.

Lemma merge_stored_plain (n : string) (valtype : Z)
    (rest : list (option string * Z)) (w : Z) (ws : list Z) (cur : option value) :
  composite valtype = false ->
  flagged_values true n rest ws = [] ->
  merge_stored n ((Some n, valtype) :: rest) (w :: ws) cur
  = merge_stored n rest ws (Some (decode_value valtype w)).
Proof.
  intros Hc Hnone. unfold merge_stored.
  rewrite !flagged_values_same, Hc, Hnone. cbn [Bool.eqb].
  destruct (flagged_values false n rest ws) as [|v vs]; [reflexivity|].
  now rewrite last_cons.
Qed.

(** The parse of a schema with handled type codes over enough words,
    from any dictionary: it returns when [composite_ok] holds for the names
    that hold no list, and raises at a composite entry otherwise. *)
Lemma parse_loop_exact (values_map : list (option string * Z)) :
  forall (registers : list Z) (i : nat) (result : Dict) (scalar : string -> bool),
    forallb (fun entry => handled entry.2) values_map = true ->
    (i + length values_map <= length registers)%nat ->
    (forall n, scalar n = is_scalar (result !! n)) ->
    if composite_ok scalar values_map
    then exists result' : Dict,
           parse_loop values_map result (decoder_at registers i)
           = (decoder_at registers (i + length values_map), Ok result') /\
           forall n, result' !! n
                     = merge_stored n values_map (skipn i registers) (result !! n)
    else exists d' : BinaryPayloadDecoder,
           parse_loop values_map result (decoder_at registers i)
           = (d', Raise (AttributeError "append")).
Proof.
  induction values_map as [|[valname valtype] rest IH];
    intros registers i result scalar Hh Hlen Hinv.
  - cbn [composite_ok]. exists result. rewrite Nat.add_0_r. split; [reflexivity|].
    intros n. unfold merge_stored. now destruct (skipn i registers).
  - cbn [forallb snd] in Hh. apply andb_true_iff in Hh as [Hh1 Hh].
    cbn [length] in Hlen.
    destruct (registers !! i) as [w|] eqn:Hw;
      [|apply lookup_ge_None in Hw; lia].
    pose proof (parse_entry_at valname valtype result registers i w Hh1 Hw) as Hstep.
    rewrite (drop_S _ _ _ Hw).
    replace (i + length ((valname, valtype) :: rest))%nat
      with (S i + length rest)%nat by (cbn [length]; lia).
    destruct valname as [m|]; cbn [composite_ok store] in *.
    2:{ specialize (IH registers (S i) result scalar Hh ltac:(lia) Hinv).
        destruct (composite_ok scalar rest).
        - destruct IH as (result' & Hloop & Hlookup). exists result'.
          split; [now erewrite parse_loop_cons_ok by exact Hstep|].
          intros n. rewrite Hlookup. symmetry. now apply merge_stored_other.
        - destruct IH as (d' & Hloop). exists d'.
          now erewrite parse_loop_cons_ok by exact Hstep. }
    destruct (composite valtype) eqn:Hc.
    + destruct (scalar m) eqn:Hm; cbn [negb andb].
      * (* the name holds a plain value: [append] fails *)
        rewrite setdefault_append_scalar in Hstep by (now rewrite <- Hinv).
        eexists. apply parse_loop_cons_raise. exact Hstep.
      * rewrite setdefault_append_list in Hstep by (now rewrite <- Hinv).
        match type of Hstep with _ = (_, Ok ?r) => set (result1 := r) in * end.
        assert (forall n, scalar n = is_scalar (result1 !! n)) as Hinv1.
        { intros n. unfold result1. destruct (decide (n = m)) as [->|Hne].
          - now rewrite lookup_insert_eq.
          - rewrite lookup_insert_ne by congruence. apply Hinv. }
        assert (forall n, merge_stored n rest (skipn (S i) registers) (result1 !! n)
                          = merge_stored n ((Some m, valtype) :: rest)
                              (w :: skipn (S i) registers) (result !! n)) as Hmerge.
        { intros n. unfold result1. destruct (decide (n = m)) as [->|Hne].
          - rewrite lookup_insert_eq. symmetry. now apply merge_stored_composite.
          - rewrite lookup_insert_ne by congruence. symmetry.
            apply merge_stored_other. congruence. }
        specialize (IH registers (S i) result1 scalar Hh ltac:(lia) Hinv1).
        destruct (composite_ok scalar rest).
        -- destruct IH as (result' & Hloop & Hlookup). exists result'.
           split; [now erewrite parse_loop_cons_ok by exact Hstep|].
           intros n. now rewrite Hlookup.
        -- destruct IH as (d' & Hloop). exists d'.
           now erewrite parse_loop_cons_ok by exact Hstep.
    + set (scalar1 := fun x => if String.eqb x m then true else scalar x).
      set (result1 := <[m := decode_value valtype w]> result) in *.
      assert (forall n, scalar1 n = is_scalar (result1 !! n)) as Hinv1.
      { intros n. unfold scalar1, result1.
        destruct (String.eqb_spec n m) as [->|Hne].
        - rewrite lookup_insert_eq. symmetry. apply decode_value_scalar.
        - rewrite lookup_insert_ne by congruence. apply Hinv. }
      specialize (IH registers (S i) result1 scalar1 Hh ltac:(lia) Hinv1).
      destruct (composite_ok scalar1 rest) eqn:Hok.
      * destruct IH as (result' & Hloop & Hlookup). exists result'.
        split; [now erewrite parse_loop_cons_ok by exact Hstep|].
        intros n. rewrite Hlookup. unfold result1.
        destruct (decide (n = m)) as [->|Hne].
        -- rewrite lookup_insert_eq. symmetry. apply merge_stored_plain; [exact Hc|].
           apply flagged_values_none. intros t Hin Hct.
           apply composite_ok_spec in Hok as [_ HP].
           specialize (HP m t Hin Hct). unfold scalar1 in HP.
           rewrite String.eqb_refl in HP. discriminate.
        -- rewrite lookup_insert_ne by congruence. symmetry.
           apply merge_stored_other. congruence.
      * destruct IH as (d' & Hloop). exists d'.
        now erewrite parse_loop_cons_ok by exact Hstep.
Qed.

(** C4, as the code has it: for every schema whose type codes are all
    handled, parsed over a decoder with at least one word per entry, every
    iteration consumes exactly one 16-bit word, named or not, before it
    stores anything. When no entry with the composite bit comes after a
    plain entry of the same name, the parser returns after one word per
    entry: nothing is stored for an entry without a name, the values of the
    composite entries of a name are collected in order in a list under it,
    created at the first of them, and a plain entry overwrites what its name
    holds, so that the last plain write wins. When a composite entry does
    come after a plain entry of the same name, [append] is called on the
    plain value and the parser raises [AttributeError]. *)
Theorem parse_modbus_values_by_map_spec
    (values_map : list (option string * Z)) (registers : list Z) :
  forallb (fun entry => handled entry.2) values_map = true ->
  (length values_map <= length registers)%nat ->
  (composite_first values_map ->
   exists result : Dict,
     parse_modbus_values_by_map values_map (decoder_at registers 0)
     = (decoder_at registers (length values_map), Ok result) /\
     forall n, result !! n = expected_stored n values_map registers) /\
  (~ composite_first values_map ->
   exists d' : BinaryPayloadDecoder,
     parse_modbus_values_by_map values_map (decoder_at registers 0)
     = (d', Raise (AttributeError "append"))) /\
  (forall valname valtype (result : Dict) i w,
     handled valtype = true ->
     registers !! i = Some w ->
     parse_entry (valname, valtype) result (decoder_at registers i)
     = (decoder_at registers (S i),
        store result valname (composite valtype) (decode_value valtype w))).
Proof.
  intros Hh Hlen.
  pose proof (parse_loop_exact values_map registers 0 ∅ (fun _ => false) Hh Hlen)
    as Hexact.
  specialize (Hexact ltac:(intros n; now rewrite lookup_empty)).
  fold (composite_firstb values_map) in Hexact.
  pose proof (composite_firstb_spec values_map) as Hspec.
  split; [|split].
  - intros Hcf. rewrite (proj2 Hspec Hcf) in Hexact.
    destruct Hexact as (result & Hloop & Hlookup).
    exists result. split; [exact Hloop|].
    intros n. rewrite Hlookup, lookup_empty, drop_0.
    unfold merge_stored, expected_stored.
    destruct (flagged_values false n values_map registers); [|reflexivity].
    now destruct (flagged_values true n values_map registers).
  - intros Hncf. destruct (composite_firstb values_map) eqn:Hb.
    + contradiction Hncf. now apply Hspec.
    + exact Hexact.
  - intros valname valtype result i w. apply parse_entry_at.
Qed.

End ParserExact.

Lemma parse_modbus_values_by_map_spec_witness :
  (exists result : Dict,
     parse_modbus_values_by_map sample_values_map (decoder_at sample_words 0)
     = (decoder_at sample_words 5, Ok result) /\
     result !! "a" = Some (VList [VInt 1; VInt 3]) /\
     result !! "b" = Some VNone /\
     result !! "c" = None) /\
  (exists result : Dict,
     parse_modbus_values_by_map sample_values_map_reuse (decoder_at sample_words 0)
     = (decoder_at sample_words 3, Ok result) /\
     result !! "a" = Some (VInt 3)).
Proof.
  split.
  - assert (length sample_values_map <= length sample_words)%nat as Hlen
      by (vm_compute; lia).
    destruct (proj1 (parse_modbus_values_by_map_spec sample_values_map
                       sample_words eq_refl Hlen)
                    (proj1 (composite_firstb_spec sample_values_map) eq_refl))
      as (result & Hparse & Hlookup).
    exists result. split; [exact Hparse|].
    rewrite !Hlookup. repeat split; reflexivity.
  - assert (length sample_values_map_reuse <= length sample_words)%nat as Hlen
      by (vm_compute; lia).
    destruct (proj1 (parse_modbus_values_by_map_spec sample_values_map_reuse
                       sample_words eq_refl Hlen)
                    (proj1 (composite_firstb_spec sample_values_map_reuse) eq_refl))
      as (result & Hparse & Hlookup).
    exists result. split; [exact Hparse|].
    rewrite Hlookup. reflexivity.
Defined.
